(** * The x402 facilitators directory page: catalog aggregation and card rendering

    A shallow embedding of [website/build.ts]: the aggregate statistics, the
    ordering of the catalog, the explorer link and icon tables, the card
    renderer and the template compositor, with the properties the
    specification states about them.

    Conventions of the embedding:
    - a JavaScript string is a [string] (a sequence of bytes, UTF-8 for the two
      pictographs of the access icons);
    - the [addresses] object of a facilitator is an association list in
      insertion order, which is the order [Object.keys], [Object.values] and
      [Object.entries] enumerate its (non-numeric) keys in;
    - the module-level array [allFacilitators] is a store that the functions
      of the pipeline read, and that [Array.prototype.sort] rewrites in place;
    - a [Date] is its time value, the milliseconds since the epoch, in [Z];
    - a [number] holding a count is a [nat]; the [fee] of a record is absent
      or a number: a finite decimal, an infinity or NaN. *)

From Stdlib Require Import String Ascii List ZArith Lia Permutation Sorted DecimalString.
From Stdlib Require Import DecimalFacts DecimalPos DecimalN.
From stdpp Require Import base gmap sets strings.
Import ListNotations.

(** ** Text *)

Module Text.

Definition dq : ascii := ascii_of_nat 34.
Definition nl : string := String (ascii_of_nat 10) EmptyString.

(** The markup of the source is full of double quotes; the literals below
    write [^] where the source has a double quote (the source text has no
    [^] of its own) and [quoted] puts the quotes back. *)
Fixpoint quoted (s : string) : string :=
  match s with
  | EmptyString => EmptyString
  | String c r => String (if Ascii.eqb c "^"%char then dq else c) (quoted r)
  end.

(** A piece of a template literal, one string per source line. *)
Definition markup (lines : list string) : string :=
  quoted (String.concat nl lines).

(** [Array.prototype.join]. *)
Definition join (sep : string) (l : list string) : string :=
  String.concat sep l.

(** [Number.prototype.toString] of a count (a non-negative integer below
    10^21 prints as its decimal digits). *)
Definition natToString (n : nat) : string :=
  NilEmpty.string_of_uint (Nat.to_uint n).

(** The pieces of a template literal, put together. *)
Definition cat (pieces : list string) : string :=
  fold_right String.append EmptyString pieces.

(** [s] without its prefix [p], when it has that prefix. *)
Fixpoint dropPrefix (p s : string) : option string :=
  match p, s with
  | EmptyString, _ => Some s
  | String a p', String b s' => if Ascii.eqb a b then dropPrefix p' s' else None
  | String _ _, EmptyString => None
  end.

(** The number of positions of [t] at which [s] starts. *)
Fixpoint countOcc (s t : string) : nat :=
  (match dropPrefix s t with Some _ => 1 | None => 0 end)
  + match t with
    | EmptyString => 0
    | String _ t' => countOcc s t'
    end.

(** [s] occurs in [t]. *)
Definition occursIn (s t : string) : Prop :=
  exists pre post, t = pre +:+ s +:+ post.

End Text.
Import Text.

(** ** Domain model *)

(** Modelled from the spec: the enumeration [Network] of [src/types], which
    the page generator imports; its three members and their string values are
    the ones [getExplorerUrl], [getNetworkIcon] and the link text of
    [generateAddressList] use. *)
Inductive Network : Type := BASE | POLYGON | SOLANA.

Definition networkValue (n : Network) : string :=
  match n with
  | BASE => "base"
  | POLYGON => "polygon"
  | SOLANA => "solana"
  end.

#[global] Instance Network_eq_dec : EqDecision Network.
Proof. solve_decision. Defined.

Definition networkIndex (n : Network) : nat :=
  match n with BASE => 0 | POLYGON => 1 | SOLANA => 2 end.

Definition networkOfIndex (k : nat) : Network :=
  match k with 0 => BASE | 1 => POLYGON | _ => SOLANA end.

#[global] Instance Network_countable : Countable Network.
Proof. apply (inj_countable' networkIndex networkOfIndex). by intros []. Defined.

(** Modelled from the spec: a token reference, carried on an address and not
    read by the generator. *)
Record Token : Type := { tokenAddress : string }.

(** The time value of a [Date] object. *)
Record Date : Type := { getTime : Z }.

Record FacilitatorAddress : Type := {
  address : string;
  tokens : list Token;
  dateOfFirstTransaction : option Date
}.

Record FacilitatorMetadata : Type := {
  name : string;
  image : string;
  docsUrl : string;
  color : string
}.

Inductive AccessType : Type := open | gated | gated_paid.

(** A finite decimal [mantissa * 10 ^ exponent]: the numbers a fee literal of
    the catalog denotes. *)
Record FiniteDecimal : Type := { mantissa : Z; exponent : Z }.

(** A value of the type [number]. *)
Inductive Number : Type :=
  | Finite (d : FiniteDecimal)
  | PosInfinity
  | NegInfinity
  | NaN.

Record Facilitator : Type := {
  id : string;
  metadata : FacilitatorMetadata;
  facilitatorUrl : string;
  fee : option Number;
  accessType : option AccessType;
  addresses : list (Network * list FacilitatorAddress)
}.

(** The [fee] of a record is [None] when the record has no such property:
    reading it gives [undefined]. *)

(** [Object.keys], [Object.values] of the [addresses] object. *)
Definition keys (f : Facilitator) : list string :=
  map (fun e => networkValue (fst e)) (addresses f).

Definition values (f : Facilitator) : list (list FacilitatorAddress) :=
  map snd (addresses f).

(** ** Catalog aggregator *)

Definition getTotalAddressesForFacilitator (facilitator : Facilitator) : nat :=
  fold_left (fun sum addresses => sum + length addresses) (values facilitator) 0.

Definition getTotalNetworks (allFacilitators : list Facilitator) : nat :=
  let networks : gset string :=
    fold_left
      (fun networks facilitator =>
         fold_left (fun networks network => {[ network ]} ∪ networks)
                   (keys facilitator) networks)
      allFacilitators ∅ in
  size networks.

Definition getTotalAddresses (allFacilitators : list Facilitator) : nat :=
  fold_left
    (fun total facilitator =>
       fold_left (fun total addresses => total + length addresses)
                 (values facilitator) total)
    allFacilitators 0.

(** ** JavaScript numbers and dates *)

Module Dec.

(** *** [Number::toString] on finite decimals

    The digits [s], their count [k] and the position [n] of the decimal
    point are the ones of the language definition: [s] has no trailing
    zero, so that [k] is as small as possible, and the value is
    [s * 10 ^ (n - k)].  The text is exact for the numbers a literal of at
    most 15 significant digits denotes. *)

Definition digitsOfZ (z : Z) : list ascii :=
  list_ascii_of_string (NilEmpty.string_of_uint (N.to_uint (Z.to_N z))).

Fixpoint dropZeros (l : list ascii) : list ascii :=
  match l with
  | c :: r => if Ascii.eqb c "0"%char then dropZeros r else l
  | [] => []
  end.

Definition zeros (n : Z) : string :=
  string_of_list_ascii (repeat "0"%char (Z.to_nat n)).

Definition positiveToString (m e : Z) : string :=
  let ds := digitsOfZ m in
  let s := rev (dropZeros (rev ds)) in
  let k := Z.of_nat (length s) in
  let n := (Z.of_nat (length ds) + e)%Z in
  if ((k <=? n) && (n <=? 21))%Z then
    string_of_list_ascii s +:+ zeros (n - k)
  else if ((0 <? n) && (n <=? 21))%Z then
    string_of_list_ascii (take (Z.to_nat n) s) +:+ "." +:+
    string_of_list_ascii (drop (Z.to_nat n) s)
  else if ((-6 <? n) && (n <=? 0))%Z then
    "0." +:+ zeros (- n) +:+ string_of_list_ascii s
  else
    let e' := (n - 1)%Z in
    let c := if (e' <? 0)%Z then "-" else "+" in
    let d := string_of_list_ascii (digitsOfZ (Z.abs e')) in
    match s with
    | [] => EmptyString
    | [a] => String a EmptyString +:+ "e" +:+ c +:+ d
    | a :: r => String a EmptyString +:+ "." +:+ string_of_list_ascii r +:+ "e" +:+ c +:+ d
    end.

Definition toString (x : FiniteDecimal) : string :=
  if (mantissa x =? 0)%Z then "0"
  else if (mantissa x <? 0)%Z then "-" +:+ positiveToString (- mantissa x) (exponent x)
  else positiveToString (mantissa x) (exponent x).

(** [x > 0] and [x === 0]: the sign of a decimal is the sign of its
    mantissa. *)
Definition gt0 (x : FiniteDecimal) : bool := (0 <? mantissa x)%Z.
Definition isZero (x : FiniteDecimal) : bool := (mantissa x =? 0)%Z.

(** The order of the decimals, on a common exponent. *)
Definition scaled (x : FiniteDecimal) (e : Z) : Z := (mantissa x * 10 ^ (exponent x - e))%Z.
Definition le (x y : FiniteDecimal) : Prop :=
  let e := Z.min (exponent x) (exponent y) in (scaled x e <= scaled y e)%Z.
Definition lt (x y : FiniteDecimal) : Prop :=
  let e := Z.min (exponent x) (exponent y) in (scaled x e < scaled y e)%Z.
Definition ofZ (z : Z) : FiniteDecimal := {| mantissa := z; exponent := 0 |}.

End Dec.

(** *** The value of a [fee] property

    [v > 0], [v === 0], the text of [v] in a template literal, and the order
    of the numbers. A comparison with NaN or with [undefined] is false. *)

Module JS.

Definition finite (d : FiniteDecimal) : option Number := Some (Finite d).

Definition ofZ (z : Z) : option Number := finite (Dec.ofZ z).

Definition gt0 (v : option Number) : bool :=
  match v with
  | Some (Finite d) => Dec.gt0 d
  | Some PosInfinity => true
  | _ => false
  end.

Definition isZero (v : option Number) : bool :=
  match v with
  | Some (Finite d) => Dec.isZero d
  | _ => false
  end.

Definition toString (v : option Number) : string :=
  match v with
  | Some (Finite d) => Dec.toString d
  | Some PosInfinity => "Infinity"
  | Some NegInfinity => "-Infinity"
  | Some NaN => "NaN"
  | None => "undefined"
  end.

Definition lt (v w : option Number) : Prop :=
  match v, w with
  | Some (Finite x), Some (Finite y) => Dec.lt x y
  | Some NegInfinity, Some (Finite _) => True
  | Some NegInfinity, Some PosInfinity => True
  | Some (Finite _), Some PosInfinity => True
  | _, _ => False
  end.

Definition le (v w : option Number) : Prop :=
  match v, w with
  | Some (Finite x), Some (Finite y) => Dec.le x y
  | Some NegInfinity, Some (Finite _) => True
  | Some NegInfinity, Some PosInfinity => True
  | Some (Finite _), Some PosInfinity => True
  | Some NegInfinity, Some NegInfinity => True
  | Some PosInfinity, Some PosInfinity => True
  | _, _ => False
  end.

(** A string is truthy when it is not empty. *)
Definition truthy (s : string) : bool :=
  match s with EmptyString => false | _ => true end.

End JS.

(** *** [Date.prototype.toLocaleDateString] for [en-US]

    The method formats the local time of the instant, in the time zone of the
    host that runs the build: no [timeZone] option is passed.  A host is the
    offset [localTZA t], in milliseconds, that its zone adds to the instant
    [t].  The calendar is the proleptic Gregorian one; the text is the one of
    the options [year: numeric, month: short, day: numeric], for the years of
    the common era. *)

Module JSDate.

Record Host : Type := { localTZA : Z -> Z }.

Definition msPerDay : Z := 86400000.

(** Year, month (1 to 12) and day of the month of a day number counted
    from 1970-01-01. *)
Definition civilFromDays (days : Z) : Z * Z * Z :=
  let z := (days + 719468)%Z in
  let era := (z / 146097)%Z in
  let doe := (z - era * 146097)%Z in
  let yoe := ((doe - doe / 1460 + doe / 36524 - doe / 146096) / 365)%Z in
  let doy := (doe - (365 * yoe + yoe / 4 - yoe / 100))%Z in
  let mp := ((5 * doy + 2) / 153)%Z in
  let d := (doy - (153 * mp + 2) / 5 + 1)%Z in
  let m := (if (mp <? 10)%Z then mp + 3 else mp - 9)%Z in
  let y := (yoe + era * 400 + (if (m <=? 2)%Z then 1 else 0))%Z in
  (y, m, d).

Definition monthShort (m : Z) : string :=
  match m with
  | 1 => "Jan" | 2 => "Feb" | 3 => "Mar" | 4 => "Apr"
  | 5 => "May" | 6 => "Jun" | 7 => "Jul" | 8 => "Aug"
  | 9 => "Sep" | 10 => "Oct" | 11 => "Nov" | _ => "Dec"
  end%Z.

Definition decimal (z : Z) : string :=
  NilEmpty.string_of_uint (N.to_uint (Z.to_N z)).

Definition toLocaleDateString (host : Host) (d : Date) : string :=
  let t := (getTime d + localTZA host (getTime d))%Z in
  let '(y, m, day) := civilFromDays (t / msPerDay) in
  monthShort m +:+ " " +:+ decimal day +:+ ", " +:+ decimal y.

(** [new Date(s)] for a date-only ISO string: midnight UTC of that day. *)
Definition daysFromCivil (y m d : Z) : Z :=
  let y' := (if (m <=? 2)%Z then y - 1 else y)%Z in
  let era := (y' / 400)%Z in
  let yoe := (y' - era * 400)%Z in
  let mp := (if (m <=? 2)%Z then m + 9 else m - 3)%Z in
  let doy := ((153 * mp + 2) / 5 + d - 1)%Z in
  let doe := (yoe * 365 + yoe / 4 - yoe / 100 + doy)%Z in
  (era * 146097 + doe - 719468)%Z.

Definition dateOnly (y m d : Z) : Date :=
  {| getTime := (daysFromCivil y m d * msPerDay)%Z |}.

Definition UTC : Host := {| localTZA := fun _ => 0%Z |}.

(** A zone at a fixed offset of [h] hours from UTC. *)
Definition fixedOffset (h : Z) : Host := {| localTZA := fun _ => (h * 3600000)%Z |}.

End JSDate.

(** ** Link and icon resolver *)

Definition getExplorerUrl (address : string) (network : Network) : string :=
  match network with
  | BASE => "https://basescan.org/address/" +:+ address
  | POLYGON => "https://polygonscan.com/address/" +:+ address
  | SOLANA => "https://explorer.solana.com/address/" +:+ address
  end.

Definition getNetworkIcon (network : Network) : string :=
  match network with
  | BASE => "base.webp"
  | POLYGON => "polygon.webp"
  | SOLANA => "solana.webp"
  end.

(** The conditional of the link text, on the key of the bucket. *)
Definition explorerLabel (network : string) : string :=
  if String.eqb network "base" then "BaseScan"
  else if String.eqb network "polygon" then "PolygonScan"
  else "Solana Explorer".

(** ** Card renderer *)

Definition lockIcon : string := markup ["<span class=^access-icon^>🔒</span>"].
Definition moneyIcon : string := markup ["<span class=^access-icon^>💰</span>"].

Definition getAccessTypeIcons (accessType : option AccessType) : string :=
  match accessType with
  | Some gated_paid => lockIcon +:+ moneyIcon
  | Some gated => lockIcon
  | _ => EmptyString
  end.

Definition accessTypeValue (a : AccessType) : string :=
  match a with
  | open => "open"
  | gated => "gated"
  | gated_paid => "gated_paid"
  end.

(** The text of one row of the address list. *)
Definition addressItem (network : Network) (addr : FacilitatorAddress) : string :=
  let explorerUrl := getExplorerUrl (address addr) network in
  let networkIcon := getNetworkIcon network in
  let network := networkValue network in
  cat [ markup [ "";
                 "        <div class=^address-item^>";
                 "          <span class=^network-label " ];
        network; markup [ "^>" ]; network;
        markup [ "</span>";
                 "          <div class=^address-text^>" ];
        address addr;
        markup [ "</div>";
                 "          <div class=^explorer-links^>";
                 "            <a href=^" ];
        explorerUrl;
        markup [ "^ target=^_blank^ rel=^noopener noreferrer^ class=^explorer-btn^>";
                 "              <img src=^" ];
        networkIcon;
        markup [ "^ alt=^" ];
        network;
        markup [ "^ class=^explorer-icon^ />";
                 "              View on " ];
        explorerLabel network;
        markup [ "";
                 "            </a>";
                 "          </div>";
                 "        </div>";
                 "      " ] ].

Definition generateAddressList (facilitator : Facilitator) : string :=
  let addressItems :=
    fold_left
      (fun addressItems entry =>
         fold_left
           (fun addressItems addr => addressItems ++ [addressItem (fst entry) addr])
           (snd entry) addressItems)
      (addresses facilitator) [] in
  join EmptyString addressItems.

Definition getFirstTransactionDate (host : JSDate.Host) (facilitator : Facilitator)
  : option string :=
  let dates :=
    fold_left
      (fun dates addresses =>
         fold_left
           (fun dates addr =>
              match dateOfFirstTransaction addr with
              | Some d => dates ++ [d]
              | None => dates
              end)
           addresses dates)
      (values facilitator) [] in
  match map getTime dates with
  | [] => None
  | t :: ts =>
      let earliest := {| getTime := fold_left Z.min ts t |} in
      Some (JSDate.toLocaleDateString host earliest)
  end.

(** The interpolations of the card template that are conditionals. *)
Definition accessIconsBlock (accessIcons : string) : string :=
  if JS.truthy accessIcons
  then cat [ markup [ "<div class=^access-icons^>" ]; accessIcons; markup [ "</div>" ] ]
  else EmptyString.

Definition feeDisplay (fee : option Number) : string :=
  if JS.gt0 fee
  then cat [ markup [ "<span class=^fee-display^>" ]; JS.toString fee; markup [ "% Fee</span>" ] ]
  else markup [ "<span class=^fee-display^>0% Fee</span>" ].

Definition dataFee (fee : option Number) : string :=
  let isFree := JS.isZero fee in
  if isFree then "free" else "paid".

Definition networkBadge (network : string) : string :=
  cat [ markup [ "<span class=^network-badge network-" ]; network; markup [ "^>" ];
        network; markup [ "</span>" ] ].

Definition firstTransactionBlock (firstDate : option string) : string :=
  match firstDate with
  | Some firstDate =>
      if JS.truthy firstDate
      then cat [ markup [ "";
                          "        <div class=^info-row^>";
                          "          <span class=^info-label^>First Transaction</span>";
                          "          <span class=^info-value^>" ];
                 firstDate;
                 markup [ "</span>";
                          "        </div>";
                          "        " ] ]
      else EmptyString
  | None => EmptyString
  end.

(** The card template up to its access icons, between them and the fee, and
    after the fee. *)
Definition cardHead (facilitator : Facilitator) : string :=
  let networks := keys facilitator in
  let accessType :=
    match accessType facilitator with
    | Some a => accessTypeValue a
    | None => "open"
    end in
  cat [ markup [ "";
                 "    <div class=^card^ id=^card-" ];
        id facilitator;
        markup [ "^ ";
                 "         data-networks=^" ];
        join "," networks;
        markup [ "^";
                 "         data-fee=^" ];
        dataFee (fee facilitator);
        markup [ "^";
                 "         data-access=^" ];
        accessType;
        markup [ "^>";
                 "      <div class=^card-accent^ style=^background: " ];
        color (metadata facilitator);
        markup [ ";^></div>";
                 "      <div class=^card-header^>";
                 "        <img ";
                 "          src=^" ];
        image (metadata facilitator);
        markup [ "^ ";
                 "          alt=^" ];
        name (metadata facilitator);
        markup [ " logo^ ";
                 "          class=^card-logo^";
                 "          onerror=^this.style.display='none'^";
                 "        />";
                 "        <div class=^card-title-section^>";
                 "          <div class=^card-title^>" ];
        name (metadata facilitator);
        markup [ "</div>";
                 "          <div class=^card-id^>" ];
        id facilitator;
        markup [ "</div>";
                 "        </div>";
                 "      </div>";
                 "      ";
                 "      <div class=^card-content^>";
                 "        <div class=^main-address-container^>";
                 "          <div class=^main-address-label^>";
                 "            Facilitator API URL";
                 "            " ] ].

Definition cardMid : string :=
  markup [ "";
           "            " ].

Definition cardTail (host : JSDate.Host) (facilitator : Facilitator) : string :=
  let networks := keys facilitator in
  let totalAddresses :=
    fold_left (fun sum addresses => sum + length addresses) (values facilitator) 0 in
  let firstDate := getFirstTransactionDate host facilitator in
  let addressList := generateAddressList facilitator in
  cat [ markup [ "";
                 "          </div>";
                 "          <div class=^main-address-display^>";
                 "            <div class=^main-address-text^>" ];
        facilitatorUrl facilitator;
        markup [ "</div>";
                 "            <button class=^copy-btn^ onclick=^copyAddress('" ];
        facilitatorUrl facilitator;
        markup [ "', this)^>";
                 "              Copy";
                 "            </button>";
                 "          </div>";
                 "        </div>";
                 "";
                 "        <div class=^info-row^>";
                 "          <span class=^info-label^>Networks</span>";
                 "          <div class=^networks^>";
                 "            " ];
        join EmptyString (map networkBadge networks);
        markup [ "";
                 "          </div>";
                 "        </div>";
                 "        ";
                 "        <div class=^info-row-wrapper^>";
                 "          <div class=^info-row addresses-interactive^ onclick=^toggleAddresses('" ];
        id facilitator;
        markup [ "')^>";
                 "            <span class=^info-label^>Addresses</span>";
                 "            <span class=^addresses-count^>" ];
        natToString totalAddresses;
        markup [ "</span>";
                 "          </div>";
                 "          ";
                 "          <div class=^address-list^>";
                 "            " ];
        addressList;
        markup [ "";
                 "          </div>";
                 "        </div>";
                 "        ";
                 "        " ];
        firstTransactionBlock firstDate;
        markup [ "";
                 "        ";
                 "        <a href=^" ];
        docsUrl (metadata facilitator);
        markup [ "^ target=^_blank^ class=^card-link^>";
                 "          View Documentation";
                 "        </a>";
                 "      </div>";
                 "    </div>";
                 "  " ] ].

Definition generateCard (host : JSDate.Host) (facilitator : Facilitator) : string :=
  let accessIcons := getAccessTypeIcons (accessType facilitator) in
  cat [ cardHead facilitator;
        accessIconsBlock accessIcons;
        cardMid;
        feeDisplay (fee facilitator);
        cardTail host facilitator ].

(** ** [Array.prototype.sort] and [String.prototype.replace] *)

Module JSArray.

Section Sort.
Context {A : Type} (compareFn : A -> A -> Z).

(** The sort of the language is stable; with a consistent comparator its
    result is the one of this insertion sort: an element moves behind a
    later one only when the comparator is positive on the pair. *)
Fixpoint insert (x : A) (l : list A) : list A :=
  match l with
  | [] => [x]
  | y :: r => if (0 <? compareFn x y)%Z then y :: insert x r else x :: l
  end.

Fixpoint sort (l : list A) : list A :=
  match l with
  | [] => []
  | x :: r => insert x (sort r)
  end.

End Sort.

End JSArray.

Module JSString.

(** The text before and after the first occurrence of [pat] in [s]. *)
Fixpoint splitFirst (pat s : string) : option (string * string) :=
  match dropPrefix pat s with
  | Some following => Some (EmptyString, following)
  | None =>
      match s with
      | EmptyString => None
      | String c r =>
          match splitFirst pat r with
          | Some (preceding, following) => Some (String c preceding, following)
          | None => None
          end
      end
  end.

(** [GetSubstitution] for a string pattern: no captures, so that a dollar
    sign is special before a dollar sign, an ampersand, a backquote and a
    single quote only. *)
Fixpoint getSubstitution (matched preceding following template : string) : string :=
  match template with
  | EmptyString => EmptyString
  | String c rest =>
      if Ascii.eqb c "$"%char then
        match rest with
        | String d rest' =>
            if Ascii.eqb d "$"%char then
              String "$"%char (getSubstitution matched preceding following rest')
            else if Ascii.eqb d "&"%char then
              matched +:+ getSubstitution matched preceding following rest'
            else if Ascii.eqb d "`"%char then
              preceding +:+ getSubstitution matched preceding following rest'
            else if Ascii.eqb d "'"%char then
              following +:+ getSubstitution matched preceding following rest'
            else String c (getSubstitution matched preceding following rest)
        | EmptyString => String c EmptyString
        end
      else String c (getSubstitution matched preceding following rest)
  end.

(** [s.replace(searchValue, replaceValue)] with two strings. *)
Definition replace (searchValue replaceValue s : string) : string :=
  match splitFirst searchValue s with
  | None => s
  | Some (preceding, following) =>
      preceding +:+
      getSubstitution searchValue preceding following replaceValue +:+
      following
  end.

End JSString.

(** ** Template compositor *)

(** The generator reads and sorts the module-level array [allFacilitators]:
    a computation takes the array and returns it, as it has left it, with its
    result. *)
Definition Build (A : Type) : Type := list Facilitator -> A * list Facilitator.

#[global] Instance Build_ret : MRet Build := fun A a store => (a, store).

#[global] Instance Build_bind : MBind Build :=
  fun A B k m store => let '(a, store') := m store in k a store'.

(** Reading the array. *)
Definition allFacilitators : Build (list Facilitator) := fun store => (store, store).

(** [allFacilitators.sort(compareFn)] sorts the array in place and returns
    it. *)
Definition sortInPlace (compareFn : Facilitator -> Facilitator -> Z)
  : Build (list Facilitator) :=
  fun store => let sorted := JSArray.sort compareFn store in (sorted, sorted).

Definition compareByAddresses (a b : Facilitator) : Z :=
  let aTotal := getTotalAddressesForFacilitator a in
  let bTotal := getTotalAddressesForFacilitator b in
  (Z.of_nat bTotal - Z.of_nat aTotal)%Z.

Definition generateHTML (host : JSDate.Host) (template : string) : Build string :=
  sorted ← sortInPlace compareByAddresses;
  let facilitatorCards := join nl (map (generateCard host) sorted) in
  facilitators ← allFacilitators;
  let html :=
    JSString.replace "{{FACILITATOR_CARDS}}" facilitatorCards
      (JSString.replace "{{TOTAL_ADDRESSES}}" (natToString (getTotalAddresses facilitators))
         (JSString.replace "{{TOTAL_NETWORKS}}" (natToString (getTotalNetworks facilitators))
            (JSString.replace "{{TOTAL_FACILITATORS}}" (natToString (length facilitators))
               template))) in
  mret html.

(** The text of the cards, as [generateHTML] computes it. *)
Definition facilitatorCards (host : JSDate.Host) (store : list Facilitator) : string :=
  join nl (map (generateCard host) (JSArray.sort compareByAddresses store)).

(** ** Definitions of the specification, and sample catalogs *)

(** The Network keys of a catalog, as a set. *)
Definition networksOf (fs : list Facilitator) : gset Network :=
  list_to_set (concat (map (fun f => map fst (addresses f)) fs)).

(** Descending keys, and the elements of one key. *)
Definition descending {A : Type} (key : A -> nat) (a b : A) : Prop := key b <= key a.

Definition hasKey {A : Type} (key : A -> nat) (k : nat) (a : A) : bool := key a =? k.

(** The address count of the specification: the sum of the lengths of the
    address sequences of one facilitator. *)
Definition addressCountOf (f : Facilitator) : nat :=
  list_sum (map (fun e => length (snd e)) (addresses f)).

(** The page that [generateHTML] composes once the array is sorted. *)
Definition page (host : JSDate.Host) (template : string) (sorted : list Facilitator) : string :=
  JSString.replace "{{FACILITATOR_CARDS}}" (join nl (map (generateCard host) sorted))
    (JSString.replace "{{TOTAL_ADDRESSES}}" (natToString (getTotalAddresses sorted))
       (JSString.replace "{{TOTAL_NETWORKS}}" (natToString (getTotalNetworks sorted))
          (JSString.replace "{{TOTAL_FACILITATORS}}" (natToString (length sorted))
             template))).

(** The tables of the specification: the base of the explorer of a network and
    the name it is displayed under. *)
Definition explorerBase (n : Network) : string :=
  match n with
  | BASE => "https://basescan.org"
  | POLYGON => "https://polygonscan.com"
  | SOLANA => "https://explorer.solana.com"
  end.

Definition explorerName (n : Network) : string :=
  match n with
  | BASE => "BaseScan"
  | POLYGON => "PolygonScan"
  | SOLANA => "Solana Explorer"
  end.

(** The two pictographs. *)
Definition lock : string := "🔒".
Definition money : string := "💰".

(** The time values of the dated addresses of a facilitator, in the order of
    its buckets and of the addresses of each. *)
Definition datedTimes (f : Facilitator) : list Z :=
  concat (map (fun addresses =>
                 concat (map (fun addr =>
                                match dateOfFirstTransaction addr with
                                | Some d => [getTime d]
                                | None => []
                                end) addresses))
              (values f)).

(** The substitution of the specification: the first occurrence of the token
    is replaced by the text as it is, and a text without the token is left as
    it is. *)
Definition substitute (token text s : string) : string :=
  match JSString.splitFirst token s with
  | None => s
  | Some (preceding, following) => preceding +:+ text +:+ following
  end.

Fixpoint hasDollar (s : string) : bool :=
  match s with
  | EmptyString => false
  | String c r => Ascii.eqb c "$"%char || hasDollar r
  end.

(** The catalog of the end-to-end example of the specification: [facA] has
    three addresses on two networks, [facB] has one. *)
Definition plainAddress (a : string) : FacilitatorAddress :=
  {| address := a; tokens := []; dateOfFirstTransaction := None |}.

Definition facA : Facilitator :=
  {| id := "a";
     metadata := {| name := "A"; image := "a.png"; docsUrl := "https://a.example/docs";
                    color := "#111111" |};
     facilitatorUrl := "https://a.example/facilitator";
     fee := JS.ofZ 0;
     accessType := Some open;
     addresses := [ (BASE, [plainAddress "0xa1"; plainAddress "0xa2"]);
                    (SOLANA, [plainAddress "SoA3"]) ] |}.

Definition facB : Facilitator :=
  {| id := "b";
     metadata := {| name := "B"; image := "b.png"; docsUrl := "https://b.example/docs";
                    color := "#222222" |};
     facilitatorUrl := "https://b.example/facilitator";
     fee := JS.ofZ 1;
     accessType := None;
     addresses := [ (BASE, [plainAddress "0xb1"]) ] |}.

(** A facilitator with a fee of 2.5 percent, and one with a negative fee. *)
Definition facPaid : Facilitator :=
  {| id := "paid";
     metadata := {| name := "Paid"; image := "p.png"; docsUrl := "https://p.example/docs";
                    color := "#333333" |};
     facilitatorUrl := "https://p.example/facilitator";
     fee := JS.finite {| mantissa := 25; exponent := -1 |};
     accessType := Some gated_paid;
     addresses := [ (POLYGON, [plainAddress "0xp1"]) ] |}.

Definition facNegative : Facilitator :=
  {| id := "neg";
     metadata := {| name := "Neg"; image := "n.png"; docsUrl := "https://n.example/docs";
                    color := "#444444" |};
     facilitatorUrl := "https://n.example/facilitator";
     fee := JS.finite {| mantissa := -5; exponent := -1 |};
     accessType := Some gated;
     addresses := [ (BASE, [plainAddress "0xn1"]) ] |}.

(** A record without a fee and without an access type, after the Treasure
    record of the catalog, which has neither; its [facilitatorUrl] is the
    url of that record's config, and its tokens are left out. *)
Definition facNoFee : Facilitator :=
  {| id := "treasure";
     metadata := {| name := "Treasure"; image := "https://images.treasure.lol/treasure.png";
                    docsUrl := "https://x402.treasure.lol/facilitator";
                    color := "#DC2626" |};
     facilitatorUrl := "https://x402.treasure.lol/facilitator";
     fee := None;
     accessType := None;
     addresses :=
       [ (BASE, [ {| address := "0xe07e9cbf9a55d02e3ac356ed4706353d98c5a618"; tokens := [];
                     dateOfFirstTransaction := Some (JSDate.dateOnly 2025 11 6) |} ]) ] |}.

(** The facilitator of the example: two addresses, first seen on 2025-11-06
    and on 2025-03-01, and one address with no date. *)
Definition facDated : Facilitator :=
  {| id := "dated";
     metadata := {| name := "Dated"; image := "d.png"; docsUrl := "https://d.example/docs";
                    color := "#555555" |};
     facilitatorUrl := "https://d.example/facilitator";
     fee := JS.ofZ 0;
     accessType := Some open;
     addresses :=
       [ (BASE, [ {| address := "0xd1"; tokens := [];
                     dateOfFirstTransaction := Some (JSDate.dateOnly 2025 11 6) |};
                  plainAddress "0xd2" ]);
         (SOLANA, [ {| address := "SoD3"; tokens := [];
                       dateOfFirstTransaction := Some (JSDate.dateOnly 2025 3 1) |} ]) ] |}.

(** A facilitator with dollar signs in its name. *)
Definition facDollar : Facilitator :=
  {| id := "pay";
     metadata := {| name := "Pay$$"; image := "pay.png"; docsUrl := "https://pay.example/docs";
                    color := "#666666" |};
     facilitatorUrl := "https://pay.example/facilitator";
     fee := JS.ofZ 1;
     accessType := Some open;
     addresses := [ (BASE, [plainAddress "0xe1"]) ] |}.

(** ** The build: files, console and exit code

    The file system of the build is its regular files, with their contents,
    and its directories. An operation fails when the file it reads is not
    there, when the place it writes to is a directory or has no directory
    above it, or when a regular file stands where a directory is to be made;
    permissions and the other failures of a real disk are outside the model.
    A failure is the operation that failed and its paths. *)

Module FS.

(** A path is the list of its segments below the root. *)
Definition path : Type := list string.

(** [path.join(p, name)] and [path.join(p, '..')] on a normalised absolute
    path. *)
Definition joinPath (p : path) (name : string) : path := p ++ [name].
Definition parentPath (p : path) : path := removelast p.

Definition pathText (p : path) : string := "/" +:+ String.concat "/" p.

(** The proper prefixes of a path, the root first. *)
Definition ancestors (p : path) : list path :=
  map (fun k => take k p) (seq 0 (length p)).

(** What the build can see and change: the regular files and their contents,
    the directories, the array [allFacilitators], and the lines written to
    the console. *)
Inductive Failure : Type :=
  | MkdirFailed (p : path)
  | CopyFailed (src dest : path)
  | ReadFailed (p : path)
  | WriteFailed (p : path).

Record World : Type := {
  files : gmap path string;
  dirs : gset path;
  store : list Facilitator;
  stdout : list string;
  stderr : list (string * Failure)
}.

Inductive Outcome (A : Type) : Type :=
  | Returned (a : A)
  | Thrown (e : Failure).
Arguments Returned {A} a.
Arguments Thrown {A} e.

Definition IO (A : Type) : Type := World -> Outcome A * World.

#[global] Instance IO_ret : MRet IO := fun A a w => (Returned a, w).

#[global] Instance IO_bind : MBind IO :=
  fun A B k m w =>
    match m w with
    | (Returned a, w') => k a w'
    | (Thrown e, w') => (Thrown e, w')
    end.

(** [try { body } catch { handler }]. *)
Definition tryCatch {A : Type} (body handler : IO A) : IO A :=
  fun w =>
    match body w with
    | (Returned a, w') => (Returned a, w')
    | (Thrown _, w') => handler w'
    end.

Definition setFiles (fs : gmap path string) (w : World) : World :=
  {| files := fs; dirs := dirs w; store := store w; stdout := stdout w; stderr := stderr w |}.

Definition setDirs (ds : gset path) (w : World) : World :=
  {| files := files w; dirs := ds; store := store w; stdout := stdout w; stderr := stderr w |}.

Definition setStore (st : list Facilitator) (w : World) : World :=
  {| files := files w; dirs := dirs w; store := st; stdout := stdout w; stderr := stderr w |}.

Definition logged (line : string) (w : World) : World :=
  {| files := files w; dirs := dirs w; store := store w;
     stdout := stdout w ++ [line]; stderr := stderr w |}.

Definition consoleLog (line : string) : IO unit :=
  fun w => (Returned tt, logged line w).

Definition consoleError (message : string) (e : Failure) : World -> World :=
  fun w => {| files := files w; dirs := dirs w; store := store w;
              stdout := stdout w; stderr := stderr w ++ [(message, e)] |}.

(** A file can be written at [p] when the parent of [p] is a directory and
    [p] is not one. *)
Definition writable (w : World) (p : path) : bool :=
  bool_decide (parentPath p ∈ dirs w) && negb (bool_decide (p ∈ dirs w)).

Definition isFile (w : World) (p : path) : bool :=
  match files w !! p with Some _ => true | None => false end.

(** [mkdir(p, { recursive: true })]: the directory and its missing ancestors
    are made; a regular file in their place is an error. *)
Definition mkdir (p : path) : IO unit :=
  fun w =>
    if existsb (isFile w) (p :: ancestors p)
    then (Thrown (MkdirFailed p), w)
    else (Returned tt, setDirs (list_to_set (p :: ancestors p) ∪ dirs w) w).

Definition copyFile (src dest : path) : IO unit :=
  fun w =>
    match files w !! src with
    | Some content =>
        if writable w dest
        then (Returned tt, setFiles (<[dest := content]> (files w)) w)
        else (Thrown (CopyFailed src dest), w)
    | None => (Thrown (CopyFailed src dest), w)
    end.

Definition readFile (p : path) : IO string :=
  fun w =>
    match files w !! p with
    | Some content => (Returned content, w)
    | None => (Thrown (ReadFailed p), w)
    end.

Definition writeFile (p : path) (content : string) : IO unit :=
  fun w =>
    if writable w p
    then (Returned tt, setFiles (<[p := content]> (files w)) w)
    else (Thrown (WriteFailed p), w).

(** A computation on the array, run in the world. *)
Definition onStore {A : Type} (m : Build A) : IO A :=
  fun w => let '(a, st) := m (store w) in (Returned a, setStore st w).

(** [for (const x of l) { await body(x) }]. *)
Fixpoint forEach {A : Type} (l : list A) (body : A -> IO unit) : IO unit :=
  match l with
  | [] => mret tt
  | x :: r => body x ;; forEach r body
  end.

End FS.
Import FS.

(** The paths of the build, from the directory [dir] of the script
    ([import.meta.dir]). *)
Definition OUTPUT_DIR (dir : path) : path := joinPath (parentPath dir) "dist".
Definition ASSETS_DIR (dir : path) : path := joinPath (parentPath dir) "assets".
Definition TEMPLATE_PATH (dir : path) : path := joinPath dir "template.html".
Definition CNAME_PATH (dir : path) : path := joinPath (parentPath dir) "CNAME".

(** [generateHTML] with its reading of the template: the array is sorted
    before the template is read. *)
Definition readAndGenerateHTML (host : JSDate.Host) (dir : path) : IO string :=
  sorted ← onStore (sortInPlace compareByAddresses);
  let facilitatorCards := join nl (map (generateCard host) sorted) in
  template ← readFile (TEMPLATE_PATH dir);
  facilitators ← onStore allFacilitators;
  let html :=
    JSString.replace "{{FACILITATOR_CARDS}}" facilitatorCards
      (JSString.replace "{{TOTAL_ADDRESSES}}" (natToString (getTotalAddresses facilitators))
         (JSString.replace "{{TOTAL_NETWORKS}}" (natToString (getTotalNetworks facilitators))
            (JSString.replace "{{TOTAL_FACILITATORS}}" (natToString (length facilitators))
               template))) in
  mret html.

Definition build (host : JSDate.Host) (dir : path) : IO unit :=
  consoleLog "🚀 Building x402 Facilitators website..." ;;
  mkdir (OUTPUT_DIR dir) ;;
  consoleLog "📦 Copying assets..." ;;
  let icons := ["base.webp"; "polygon.webp"; "solana.webp"] in
  forEach icons
    (fun icon => copyFile (joinPath (ASSETS_DIR dir) icon) (joinPath (OUTPUT_DIR dir) icon)) ;;
  tryCatch
    (copyFile (CNAME_PATH dir) (joinPath (OUTPUT_DIR dir) "CNAME") ;;
     consoleLog "📄 Copied CNAME file")
    (consoleLog "⚠️  No CNAME file found (skipping)") ;;
  html ← readAndGenerateHTML host dir;
  writeFile (joinPath (OUTPUT_DIR dir) "index.html") html ;;
  consoleLog "✅ Website built successfully!" ;;
  consoleLog ("📁 Output: " +:+ pathText (OUTPUT_DIR dir)) ;;
  consoleLog "🌐 To serve locally: cd dist && npx http-server".

(** [build().catch(...)]: the exit code of the process and the world it
    leaves. *)
Definition main (host : JSDate.Host) (dir : path) (w : World) : nat * World :=
  match build host dir w with
  | (Returned _, w') => (0, w')
  | (Thrown e, w') => (1, consoleError "❌ Build failed:" e w')
  end.

(** A relation between the world before and the world after that every step
    of a computation keeps, whether the step returns or throws. *)
Definition keeps (R : World -> World -> Prop) {A : Type} (m : IO A) : Prop :=
  forall w, R w (snd (m w)).

(** The files that the build writes. *)
Definition outputs (dir : path) : list path :=
  map (joinPath (OUTPUT_DIR dir)) ["base.webp"; "polygon.webp"; "solana.webp"; "CNAME"; "index.html"].

(** The files outside [ps] are the same in the two worlds. *)
Definition sameFilesOutside (ps : list path) (w w' : World) : Prop :=
  forall p, ~ In p ps -> files w' !! p = files w !! p.

Definition icons : list string := ["base.webp"; "polygon.webp"; "solana.webp"].

Definition distFree (dir : path) (w : World) : bool :=
  negb (existsb (isFile w) (OUTPUT_DIR dir :: ancestors (OUTPUT_DIR dir))).

Definition canPlace (dir : path) (w : World) (name : string) : bool :=
  negb (bool_decide (joinPath (OUTPUT_DIR dir) name ∈ dirs w)).

Definition buildable (dir : path) (w : World) : bool :=
  distFree dir w
  && forallb (fun icon => isFile w (joinPath (ASSETS_DIR dir) icon) && canPlace dir w icon) icons
  && isFile w (TEMPLATE_PATH dir)
  && canPlace dir w "index.html".

(** The last part of the build: the page is generated and written. *)
Definition writePage (host : JSDate.Host) (dir : path) : IO unit :=
  html ← readAndGenerateHTML host dir;
  writeFile (joinPath (OUTPUT_DIR dir) "index.html") html ;;
  consoleLog "✅ Website built successfully!" ;;
  consoleLog ("📁 Output: " +:+ pathText (OUTPUT_DIR dir)) ;;
  consoleLog "🌐 To serve locally: cd dist && npx http-server".

Definition withAccessType (a : option AccessType) (f : Facilitator) : Facilitator :=
  {| id := id f; metadata := metadata f; facilitatorUrl := facilitatorUrl f;
     fee := fee f; accessType := a; addresses := addresses f |}.

Definition addressRows (f : Facilitator) : list string :=
  concat (map (fun entry => map (addressItem (fst entry)) (snd entry)) (addresses f)).

Definition facCostly : Facilitator :=
  {| id := "costly";
     metadata := {| name := "Costly"; image := "c.png"; docsUrl := "https://c.example/docs";
                    color := "#777777" |};
     facilitatorUrl := "https://c.example/facilitator";
     fee := JS.ofZ 150;
     accessType := Some open;
     addresses := [] |}.

(** A small repository: the script in [/repo/website], the three icons, the
    template, and no CNAME file. *)
Definition sampleDir : path := ["repo"; "website"].

Definition sampleWorld : World :=
  {| files :=
       list_to_map
         [ (["repo"; "assets"; "base.webp"], "base-icon");
           (["repo"; "assets"; "polygon.webp"], "polygon-icon");
           (["repo"; "assets"; "solana.webp"], "solana-icon");
           (["repo"; "website"; "template.html"], "<b>{{TOTAL_FACILITATORS}}</b>") ];
     dirs := list_to_set [ []; ["repo"]; ["repo"; "assets"]; ["repo"; "website"] ];
     store := [facB; facA];
     stdout := [];
     stderr := [] |}.

(** The same repository with the first icon only. *)
Definition oneIconWorld : World :=
  {| files :=
       list_to_map
         [ (["repo"; "assets"; "base.webp"], "base-icon");
           (["repo"; "website"; "template.html"], "<b></b>") ];
     dirs := list_to_set [ []; ["repo"]; ["repo"; "assets"]; ["repo"; "website"] ];
     store := [facB; facA];
     stdout := [];
     stderr := [] |}.

(** The same repository without its icons. *)
Definition bareWorld : World :=
  {| files := list_to_map [ (["repo"; "website"; "template.html"], "<b></b>") ];
     dirs := list_to_set [ []; ["repo"]; ["repo"; "website"] ];
     store := [facB; facA];
     stdout := [];
     stderr := [] |}.

(** ** Facts about text *)

Section TextFacts.

Lemma append_String (c : ascii) (s t : string) : String c s +:+ t = String c (s +:+ t).
Proof. reflexivity. Qed.

Lemma append_nil_l (s : string) : EmptyString +:+ s = s.
Proof. reflexivity. Qed.

Lemma append_nil_r (s : string) : s +:+ EmptyString = s.
Proof. induction s as [|c s IH]; [done|]. by rewrite append_String, IH. Qed.

Lemma append_assoc (s t u : string) : (s +:+ t) +:+ u = s +:+ (t +:+ u).
Proof. induction s as [|c s IH]; [done|]. by rewrite !append_String, IH. Qed.

Lemma cat_cons (x : string) (l : list string) : cat (x :: l) = x +:+ cat l.
Proof. reflexivity. Qed.

Lemma cat_app (l1 l2 : list string) : cat (l1 ++ l2) = cat l1 +:+ cat l2.
Proof.
  induction l1 as [|x l1 IH]; [done|].
  by rewrite <- app_comm_cons, !cat_cons, IH, append_assoc.
Qed.

Lemma occursIn_refl (s : string) : occursIn s s.
Proof. exists EmptyString, EmptyString. by rewrite append_nil_r. Qed.

Lemma occursIn_trans (s t u : string) : occursIn s t -> occursIn t u -> occursIn s u.
Proof.
  intros (p1 & q1 & ->) (p2 & q2 & ->).
  exists (p2 +:+ p1), (q1 +:+ q2). by rewrite !append_assoc.
Qed.

(** A piece of a template occurs in the text. *)
Lemma occursIn_cat (l1 l2 : list string) (x : string) : occursIn x (cat (l1 ++ x :: l2)).
Proof. exists (cat l1), (cat l2). by rewrite cat_app, cat_cons. Qed.

(** So does an interpolated value together with the end of the piece
    before it and the start of the piece after it. *)
Lemma occursIn_cat_span (l1 l2 : list string) (p q v a0 a1 b0 b1 : string) :
  p = a0 +:+ a1 -> q = b0 +:+ b1 ->
  occursIn (a1 +:+ v +:+ b0) (cat (l1 ++ p :: v :: q :: l2)).
Proof.
  intros -> ->. exists (cat l1 +:+ a0), (b1 +:+ cat l2).
  by rewrite cat_app, !cat_cons, !append_assoc.
Qed.

Lemma dropPrefix_Some (p s r : string) : dropPrefix p s = Some r -> s = p +:+ r.
Proof.
  revert s. induction p as [|a p IH]; intros s H.
  - destruct s; simpl in H; by inversion H.
  - destruct s as [|b s]; simpl in H; [done|].
    destruct (Ascii.eqb_spec a b) as [->|]; [|done].
    rewrite append_String. f_equal. by apply IH.
Qed.

Lemma dropPrefix_app (p r : string) : dropPrefix p (p +:+ r) = Some r.
Proof.
  induction p as [|a p IH]; [by destruct r|].
  rewrite append_String. simpl. by rewrite Ascii.eqb_refl.
Qed.

End TextFacts.

(** ** Examples of numbers, dates and replacements *)

Example toString_2_5 : Dec.toString {| mantissa := 25; exponent := -1 |} = "2.5".
Proof. reflexivity. Qed.
Example toString_100 : Dec.toString {| mantissa := 1; exponent := 2 |} = "100".
Proof. reflexivity. Qed.
Example toString_2_50 : Dec.toString {| mantissa := 250; exponent := -2 |} = "2.5".
Proof. reflexivity. Qed.
Example toString_0_003 : Dec.toString {| mantissa := 3; exponent := -3 |} = "0.003".
Proof. reflexivity. Qed.
Example toString_1em7 : Dec.toString {| mantissa := 1; exponent := -7 |} = "1e-7".
Proof. reflexivity. Qed.
Example toString_12_5em8 : Dec.toString {| mantissa := 125; exponent := -9 |} = "1.25e-7".
Proof. reflexivity. Qed.
Example toString_neg : Dec.toString {| mantissa := -15; exponent := -1 |} = "-1.5".
Proof. reflexivity. Qed.
Example toString_big : Dec.toString {| mantissa := 12; exponent := 21 |} = "1.2e+22".
Proof. reflexivity. Qed.

Example time_2025_03_01 : getTime (JSDate.dateOnly 2025 3 1) = 1740787200000%Z.
Proof. reflexivity. Qed.
Example time_2025_11_06 : getTime (JSDate.dateOnly 2025 11 6) = 1762387200000%Z.
Proof. reflexivity. Qed.
Example format_utc : JSDate.toLocaleDateString JSDate.UTC (JSDate.dateOnly 2025 3 1) = "Mar 1, 2025".
Proof. reflexivity. Qed.
Example format_leap : JSDate.toLocaleDateString JSDate.UTC (JSDate.dateOnly 2024 2 29) = "Feb 29, 2024".
Proof. reflexivity. Qed.
Example format_epoch : JSDate.toLocaleDateString JSDate.UTC {| getTime := 0 |} = "Jan 1, 1970".
Proof. reflexivity. Qed.
Example format_before_epoch : JSDate.toLocaleDateString JSDate.UTC {| getTime := -1 |} = "Dec 31, 1969".
Proof. reflexivity. Qed.
Example civil_round_trip :
  forallb (fun n => (JSDate.daysFromCivil
                       (fst (fst (JSDate.civilFromDays n)))
                       (snd (fst (JSDate.civilFromDays n)))
                       (snd (JSDate.civilFromDays n)) =? n)%Z)
          (map (fun k => (Z.of_nat k + 19700)%Z) (seq 0 800)) = true.
Proof. vm_compute. reflexivity. Qed.
Example format_west : JSDate.toLocaleDateString (JSDate.fixedOffset (-5)) (JSDate.dateOnly 2025 3 1) = "Feb 28, 2025".
Proof. reflexivity. Qed.

Example replace_first : JSString.replace "ab" "X" "cabab" = "cXab".
Proof. reflexivity. Qed.
Example replace_absent : JSString.replace "ab" "X" "cba" = "cba".
Proof. reflexivity. Qed.
Example replace_dollars : JSString.replace "ab" "<$$|$&|$`|$'|$1|$>" "cabd" = "c<$|ab|c|d|$1|$>d".
Proof. reflexivity. Qed.

(** ** Properties of the aggregator *)

Section Aggregator.

Lemma networkValue_inj : Inj (=) (=) networkValue.
Proof. intros [] [] H; simpl in H; congruence. Qed.

#[local] Existing Instance networkValue_inj.

(** The inner loop over the buckets of one facilitator adds their lengths to
    the running total. *)
Lemma bucket_loop (bs : list (list FacilitatorAddress)) (total : nat) :
  fold_left (fun total addresses => total + length addresses) bs total
  = total + list_sum (map (@length _) bs).
Proof.
  revert total. induction bs as [|b bs IH]; intros total; simpl.
  - lia.
  - rewrite IH. lia.
Qed.

Lemma facilitator_loop (fs : list Facilitator) (total : nat) :
  fold_left
    (fun total facilitator =>
       fold_left (fun total addresses => total + length addresses)
                 (values facilitator) total) fs total
  = total + list_sum (map (fun f => list_sum (map (@length _) (values f))) fs).
Proof.
  revert total. induction fs as [|f fs IH]; intros total; simpl.
  - lia.
  - rewrite IH, bucket_loop. lia.
Qed.

Lemma getTotalAddressesForFacilitator_sum (f : Facilitator) :
  getTotalAddressesForFacilitator f = list_sum (map (@length _) (values f)).
Proof. unfold getTotalAddressesForFacilitator. by rewrite bucket_loop. Qed.

(** The two loops of [getTotalNetworks] build the set of the keys they
    visit. *)
Lemma key_loop (ks : list string) (acc : gset string) :
  fold_left (fun networks network => {[ network ]} ∪ networks) ks acc
  = list_to_set ks ∪ acc.
Proof.
  revert acc. induction ks as [|k ks IH]; intros acc; simpl.
  - by rewrite (left_id_L ∅ (∪)).
  - by rewrite IH, (assoc_L (∪)), (comm_L (∪) (list_to_set ks)).
Qed.

Lemma network_loop (fs : list Facilitator) (acc : gset string) :
  fold_left
    (fun networks facilitator =>
       fold_left (fun networks network => {[ network ]} ∪ networks)
                 (keys facilitator) networks) fs acc
  = list_to_set (concat (map keys fs)) ∪ acc.
Proof.
  revert acc. induction fs as [|f fs IH]; intros acc; simpl.
  - by rewrite (left_id_L ∅ (∪)).
  - by rewrite IH, key_loop, list_to_set_app_L, (assoc_L (∪)),
      (comm_L (∪) (list_to_set (concat (map keys fs)))).
Qed.

Lemma elem_of_concat_map {A B : Type} (g : A -> list B) (l : list A) (x : B) :
  x ∈ concat (map g l) ↔ ∃ a, a ∈ l ∧ x ∈ g a.
Proof.
  rewrite list_elem_of_In, in_concat. split.
  - intros (k & Hk & Hx). apply in_map_iff in Hk. destruct Hk as (a & <- & Ha).
    exists a. by rewrite !list_elem_of_In.
  - intros (a & Ha & Hx). exists (g a). apply list_elem_of_In in Ha, Hx.
    split; [by apply in_map|done].
Qed.

Lemma elem_of_networksOf (fs : list Facilitator) (n : Network) :
  n ∈ networksOf fs ↔ ∃ f, f ∈ fs ∧ n ∈ map fst (addresses f).
Proof. unfold networksOf. by rewrite elem_of_list_to_set, elem_of_concat_map. Qed.

Lemma elem_of_keys (f : Facilitator) (s : string) :
  s ∈ keys f ↔ ∃ n, s = networkValue n ∧ n ∈ map fst (addresses f).
Proof.
  unfold keys. rewrite <- (map_map fst networkValue).
  apply (list_elem_of_fmap networkValue).
Qed.

Lemma getTotalNetworks_size (fs : list Facilitator) :
  getTotalNetworks fs = size (networksOf fs).
Proof.
  unfold getTotalNetworks. rewrite network_loop, (right_id_L ∅ (∪)).
  unfold size, set_size; simpl.
  rewrite <- (length_fmap networkValue (elements (networksOf fs))).
  apply Permutation_length, NoDup_Permutation.
  - apply NoDup_elements.
  - apply (NoDup_fmap_2 networkValue), NoDup_elements.
  - intros s. rewrite elem_of_elements, elem_of_list_to_set, elem_of_concat_map.
    rewrite list_elem_of_fmap. setoid_rewrite elem_of_elements.
    setoid_rewrite elem_of_networksOf. setoid_rewrite elem_of_keys.
    split.
    + intros (f & Hf & n & -> & Hn). exists n. split; [done|]. by exists f.
    + intros (n & -> & f & Hf & Hn). exists f. split; [done|]. by exists n.
Qed.

(** C1: [totalAddresses] is the sum, over every facilitator and every
    network bucket of its [addresses] map, of the length of the bucket, and
    [totalNetworks] is the cardinality of the set of the Network keys that
    occur in some facilitator's map (a network shared by several
    facilitators counts once). *)
Theorem aggregator_totals (allFacilitators : list Facilitator) :
  getTotalAddresses allFacilitators
  = list_sum (map (fun f => list_sum (map (fun e => length (snd e)) (addresses f)))
                  allFacilitators)
  ∧ ∃ S : gset Network,
      (∀ n, n ∈ S ↔ ∃ f, f ∈ allFacilitators ∧ n ∈ map fst (addresses f))
      ∧ getTotalNetworks allFacilitators = size S.
Proof.
  split.
  - unfold getTotalAddresses. rewrite facilitator_loop. simpl.
    f_equal. apply map_ext. intros f. unfold values. by rewrite map_map.
  - exists (networksOf allFacilitators). split.
    + apply elem_of_networksOf.
    + apply getTotalNetworks_size.
Qed.

End Aggregator.

(** ** Properties of the ordering *)

Section SortFacts.
Context {A : Type} (key : A -> nat) (compareFn : A -> A -> Z).
Hypothesis compareFn_key :
  forall a b, compareFn a b = (Z.of_nat (key b) - Z.of_nat (key a))%Z.

Lemma insert_perm (x : A) (l : list A) :
  Permutation (x :: l) (JSArray.insert compareFn x l).
Proof.
  induction l as [|y r IH]; simpl; [done|].
  destruct (0 <? compareFn x y)%Z; [|done].
  etransitivity; [apply perm_swap|]. by apply perm_skip.
Qed.

Lemma sort_perm (l : list A) : Permutation l (JSArray.sort compareFn l).
Proof.
  induction l as [|x r IH]; simpl; [done|].
  etransitivity; [apply perm_skip, IH|]. apply insert_perm.
Qed.

Lemma insert_sorted (x : A) (l : list A) :
  StronglySorted (descending key) l ->
  StronglySorted (descending key) (JSArray.insert compareFn x l).
Proof.
  induction 1 as [|y r Hr IH Hy]; simpl.
  - repeat constructor.
  - destruct (0 <? compareFn x y)%Z eqn:E.
    + constructor; [done|].
      apply (Permutation_Forall (insert_perm x r)). constructor; [|done].
      apply Z.ltb_lt in E. rewrite compareFn_key in E. unfold descending. lia.
    + apply Z.ltb_ge in E. rewrite compareFn_key in E.
      constructor; [by constructor|]. constructor; [unfold descending; lia|].
      eapply Forall_impl; [exact Hy|]. intros z. unfold descending. lia.
Qed.

Lemma sort_sorted (l : list A) : StronglySorted (descending key) (JSArray.sort compareFn l).
Proof.
  induction l as [|x r IH]; simpl; [constructor|]. by apply insert_sorted.
Qed.

(** Insertion steps over larger keys only: within a key, the new element
    stays first. *)
Lemma insert_filter (k : nat) (x : A) (l : list A) :
  List.filter (hasKey key k) (JSArray.insert compareFn x l)
  = List.filter (hasKey key k) (x :: l).
Proof.
  induction l as [|y r IH]; [done|].
  simpl JSArray.insert. destruct (0 <? compareFn x y)%Z eqn:E; [|done].
  apply Z.ltb_lt in E. rewrite compareFn_key in E.
  simpl in *. rewrite IH. unfold hasKey.
  destruct (key x =? k) eqn:Ex, (key y =? k) eqn:Ey; try done.
  apply Nat.eqb_eq in Ex, Ey. lia.
Qed.

Lemma sort_stable (k : nat) (l : list A) :
  List.filter (hasKey key k) (JSArray.sort compareFn l) = List.filter (hasKey key k) l.
Proof.
  induction l as [|x r IH]; [done|].
  simpl JSArray.sort. rewrite insert_filter. simpl. by rewrite IH.
Qed.

Lemma sort_sorted_id (l : list A) :
  StronglySorted (descending key) l -> JSArray.sort compareFn l = l.
Proof.
  induction 1 as [|x r Hr IH Hx]; [done|].
  simpl. rewrite IH. destruct Hx as [|y r' Hy _]; [done|].
  simpl. rewrite compareFn_key.
  destruct (0 <? _)%Z eqn:E; [|done].
  apply Z.ltb_lt in E. unfold descending in Hy. lia.
Qed.

Lemma sort_idempotent (l : list A) :
  JSArray.sort compareFn (JSArray.sort compareFn l) = JSArray.sort compareFn l.
Proof. apply sort_sorted_id, sort_sorted. Qed.

End SortFacts.

Lemma compareByAddresses_key (a b : Facilitator) :
  compareByAddresses a b = (Z.of_nat (addressCountOf b) - Z.of_nat (addressCountOf a))%Z.
Proof.
  unfold compareByAddresses, addressCountOf.
  rewrite !getTotalAddressesForFacilitator_sum. unfold values. by rewrite !map_map.
Qed.

(** C2: the page is composed from the cards of the facilitators of the
    catalog, joined by newlines, in an order that is sorted by [addressCountOf]
    descending and stable: the facilitators of any one address count follow
    each other as they do in the catalog. *)
Theorem cards_sorted_stable
  (host : JSDate.Host) (template : string) (catalog : list Facilitator) :
  exists sorted : list Facilitator,
    fst (generateHTML host template catalog) = page host template sorted
    /\ facilitatorCards host catalog = join nl (map (generateCard host) sorted)
    /\ Permutation catalog sorted
    /\ StronglySorted (fun a b => addressCountOf b <= addressCountOf a) sorted
    /\ forall k : nat,
         List.filter (fun f => addressCountOf f =? k) sorted
         = List.filter (fun f => addressCountOf f =? k) catalog.
Proof.
  exists (JSArray.sort compareByAddresses catalog).
  split; [done|]. split; [done|].
  split; [apply sort_perm|]. split.
  - apply (sort_sorted addressCountOf), compareByAddresses_key.
  - intros k. apply (sort_stable addressCountOf), compareByAddresses_key.
Qed.

(** Three facilitators, the last two of one address each: the ties keep the
    order of the catalog. *)
Example stable_ties :
  JSArray.sort compareByAddresses [facB; facNegative; facA] = [facA; facB; facNegative]
  /\ JSArray.sort compareByAddresses [facNegative; facB; facA] = [facA; facNegative; facB].
Proof. split; reflexivity. Qed.

(** ** Properties of the pipeline *)

Lemma generateHTML_run (host : JSDate.Host) (template : string) (store : list Facilitator) :
  generateHTML host template store
  = (page host template (JSArray.sort compareByAddresses store),
     JSArray.sort compareByAddresses store).
Proof. reflexivity. Qed.

Example end_to_end :
  facilitatorCards JSDate.UTC [facB; facA]
  = generateCard JSDate.UTC facA +:+ nl +:+ generateCard JSDate.UTC facB
  /\ fst (generateHTML JSDate.UTC
            "{{TOTAL_FACILITATORS}}/{{TOTAL_NETWORKS}}/{{TOTAL_ADDRESSES}}" [facB; facA])
     = "2/2/4".
Proof. split; vm_compute; reflexivity. Qed.

(** On one host generation is repeatable: the page is a function of the
    host, the template and the catalog, and running the generator again, on
    the array as the first run has left it, gives the same text. *)
Lemma generation_repeatable
  (host : JSDate.Host) (template : string) (catalog : list Facilitator) :
  let first := generateHTML host template catalog in
  let second := generateHTML host template (snd first) in
  fst second = fst first /\ snd second = snd first.
Proof.
  cbv zeta. rewrite !generateHTML_run. cbn [fst snd].
  by rewrite (sort_idempotent addressCountOf _ compareByAddresses_key).
Qed.

(** C8 fails in the code: generation is not a function of the catalog and
    the template alone.  The time zone of the host is an input of the page:
    the same template and the same catalog give two texts on two hosts, the
    one of a host at UTC with the date [Mar 1, 2025], the one of a host five
    hours west of it with [Feb 28, 2025] in its place, while both runs leave
    the same catalog. *)
Theorem host_is_an_input :
  let template := "{{FACILITATOR_CARDS}}" in
  let catalog := [facDated] in
  let west := generateHTML (JSDate.fixedOffset (-5)) template catalog in
  let utc := generateHTML JSDate.UTC template catalog in
  fst west <> fst utc
  /\ snd west = snd utc
  /\ countOcc "Mar 1, 2025" (fst utc) = 1 /\ countOcc "Feb 28, 2025" (fst utc) = 0
  /\ countOcc "Mar 1, 2025" (fst west) = 0 /\ countOcc "Feb 28, 2025" (fst west) = 1.
Proof.
  cbv zeta.
  assert (countOcc "Mar 1, 2025"
            (fst (generateHTML JSDate.UTC "{{FACILITATOR_CARDS}}" [facDated])) = 1) as Hutc
    by (vm_compute; reflexivity).
  assert (countOcc "Mar 1, 2025"
            (fst (generateHTML (JSDate.fixedOffset (-5)) "{{FACILITATOR_CARDS}}" [facDated])) = 0)
    as Hwest by (vm_compute; reflexivity).
  split.
  { intros H. rewrite H, Hutc in Hwest. discriminate Hwest. }
  split; [rewrite !generateHTML_run; cbn [snd]; reflexivity|].
  split; [exact Hutc|].
  split; [vm_compute; reflexivity|].
  split; [exact Hwest|].
  vm_compute; reflexivity.
Qed.

(** C9, as it is stated, fails: the sort is in place, and a catalog that is
    not in descending order of address count is reordered by the run. *)
Lemma catalog_reordered :
  snd (generateHTML JSDate.UTC EmptyString [facB; facA]) <> [facB; facA].
Proof. vm_compute. discriminate. Qed.

(** C9, amended: a run leaves the array holding the same records, none of them
    changed, in the order of the sort: by address count descending, the
    records of one address count in their order before the run. The array
    equals its value before the run exactly when the catalog was in
    descending order of address count already. *)
Theorem generation_permutes_catalog
  (host : JSDate.Host) (template : string) (catalog : list Facilitator) :
  let after := snd (generateHTML host template catalog) in
  Permutation catalog after
  /\ StronglySorted (fun a b => addressCountOf b <= addressCountOf a) after
  /\ (forall k : nat,
        List.filter (fun f => addressCountOf f =? k) after
        = List.filter (fun f => addressCountOf f =? k) catalog)
  /\ (after = catalog <->
      StronglySorted (fun a b => addressCountOf b <= addressCountOf a) catalog).
Proof.
  cbv zeta. rewrite generateHTML_run. cbn [fst snd].
  split; [apply sort_perm|]. split.
  { apply (sort_sorted addressCountOf), compareByAddresses_key. }
  split.
  { intros k. apply (sort_stable addressCountOf), compareByAddresses_key. }
  split.
  - intros <-. apply (sort_sorted addressCountOf), compareByAddresses_key.
  - apply (sort_sorted_id addressCountOf), compareByAddresses_key.
Qed.

(** ** Properties of the resolver *)

Lemma explorerLabel_name (n : Network) : explorerLabel (networkValue n) = explorerName n.
Proof. by destruct n. Qed.

Lemma getExplorerUrl_base (a : string) (n : Network) :
  getExplorerUrl a n = explorerBase n +:+ "/address/" +:+ a.
Proof. by destruct n. Qed.

(** C7: the explorer link of an address on a network is the base of the
    explorer of that network, then [/address/], then the address as it is;
    the bases and the icon file names differ from network to network; the
    row of the address carries the link, the icon of the network and the name
    of its explorer (BaseScan, PolygonScan, Solana Explorer). *)
Theorem explorer_link (n : Network) (a : FacilitatorAddress) :
  getExplorerUrl (address a) n = explorerBase n +:+ "/address/" +:+ address a
  /\ (forall n', explorerBase n' = explorerBase n -> n' = n)
  /\ (forall n', getNetworkIcon n' = getNetworkIcon n -> n' = n)
  /\ occursIn (markup ["<a href=^"] +:+ (explorerBase n +:+ "/address/" +:+ address a)
               +:+ markup ["^ target=^_blank^"])
              (addressItem n a)
  /\ occursIn (markup ["<img src=^"] +:+ getNetworkIcon n +:+ markup ["^ alt=^"])
              (addressItem n a)
  /\ occursIn ("View on " +:+ explorerName n +:+ nl) (addressItem n a).
Proof.
  split; [apply getExplorerUrl_base|].
  split; [by intros []; destruct n|].
  split; [by intros []; destruct n|].
  unfold addressItem. rewrite <- getExplorerUrl_base, explorerLabel_name.
  split; [|split].
  - apply (occursIn_cat_span
             [_; _; _; _; _; _] _ _ _ _
             (markup ["</div>"; "          <div class=^explorer-links^>"; "            "])
             (markup ["<a href=^"])
             (markup ["^ target=^_blank^"])
             (markup [" rel=^noopener noreferrer^ class=^explorer-btn^>";
                      "              <img src=^"])); reflexivity.
  - apply (occursIn_cat_span
             [_; _; _; _; _; _; _; _] _ _ _ _
             (markup ["^ target=^_blank^ rel=^noopener noreferrer^ class=^explorer-btn^>";
                      "              "])
             (markup ["<img src=^"])
             (markup ["^ alt=^"])
             EmptyString); reflexivity.
  - apply (occursIn_cat_span
             [_; _; _; _; _; _; _; _; _; _; _; _] [] _ _ _
             (markup ["^ class=^explorer-icon^ />"; "              "])
             "View on "
             nl
             (markup ["            </a>"; "          </div>"; "        </div>"; "      "]));
      reflexivity.
Qed.

(** Every address of a facilitator has its row in the address list. *)
Lemma address_loop (n : Network) (addrs : list FacilitatorAddress) (acc : list string) :
  fold_left (fun addressItems addr => addressItems ++ [addressItem n addr]) addrs acc
  = acc ++ map (addressItem n) addrs.
Proof.
  revert acc. induction addrs as [|a addrs IH]; intros acc; simpl.
  - by rewrite app_nil_r.
  - by rewrite IH, <- app_assoc.
Qed.

Lemma entry_loop (entries : list (Network * list FacilitatorAddress)) (acc : list string) :
  fold_left
    (fun addressItems entry =>
       fold_left
         (fun addressItems addr => addressItems ++ [addressItem (fst entry) addr])
         (snd entry) addressItems)
    entries acc
  = acc ++ concat (map (fun entry => map (addressItem (fst entry)) (snd entry)) entries).
Proof.
  revert acc. induction entries as [|e entries IH]; intros acc; simpl.
  - by rewrite app_nil_r.
  - by rewrite IH, address_loop, <- app_assoc.
Qed.

Lemma join_empty (l : list string) : join EmptyString l = cat l.
Proof.
  induction l as [|x l IH]; [done|].
  unfold join in *. destruct l as [|y l].
  - symmetry. apply append_nil_r.
  - change (String.concat EmptyString (x :: y :: l))
      with (x +:+ EmptyString +:+ String.concat EmptyString (y :: l)).
    by rewrite IH.
Qed.

Lemma address_list_rows (f : Facilitator) (n : Network)
    (addrs : list FacilitatorAddress) (a : FacilitatorAddress) :
  In (n, addrs) (addresses f) -> In a addrs ->
  occursIn (addressItem n a) (generateAddressList f).
Proof.
  intros Hn Ha. unfold generateAddressList. rewrite entry_loop, join_empty. simpl.
  assert (In (addressItem n a)
            (concat (map (fun entry => map (addressItem (fst entry)) (snd entry))
                         (addresses f)))) as Hin.
  { apply in_concat. exists (map (addressItem n) addrs). split.
    - apply in_map_iff. by exists (n, addrs).
    - by apply in_map. }
  apply in_split in Hin. destruct Hin as (l1 & l2 & ->). apply occursIn_cat.
Qed.

(** ** Properties of the card *)



(** On the sample catalog, whose strings have no icon of their own, the
    counts are those of the whole card. *)
Example whole_card_icons :
  countOcc lock (generateCard JSDate.UTC facA) = 0
  /\ countOcc money (generateCard JSDate.UTC facA) = 0
  /\ countOcc lock (generateCard JSDate.UTC facB) = 0
  /\ countOcc lock (generateCard JSDate.UTC facNegative) = 1
  /\ countOcc money (generateCard JSDate.UTC facNegative) = 0
  /\ countOcc lock (generateCard JSDate.UTC facPaid) = 1
  /\ countOcc money (generateCard JSDate.UTC facPaid) = 1.
Proof. repeat split; vm_compute; reflexivity. Qed.

Lemma le_zero_mantissa (x : FiniteDecimal) : Dec.le (Dec.ofZ 0) x -> (0 <= mantissa x)%Z.
Proof.
  unfold Dec.le, Dec.scaled. simpl. intros H.
  set (e := (exponent x - Z.min 0 (exponent x))%Z) in *.
  assert (0 < 10 ^ e)%Z by (apply Z.pow_pos_nonneg; lia).
  nia.
Qed.

Lemma lt_zero_mantissa (x : FiniteDecimal) : Dec.lt x (Dec.ofZ 0) <-> (mantissa x < 0)%Z.
Proof.
  unfold Dec.lt, Dec.scaled. simpl.
  set (e := (exponent x - Z.min (exponent x) 0)%Z) in *.
  assert (0 < 10 ^ e)%Z by (apply Z.pow_pos_nonneg; lia).
  split; nia.
Qed.

Lemma zero_lt_mantissa (x : FiniteDecimal) : Dec.lt (Dec.ofZ 0) x <-> (0 < mantissa x)%Z.
Proof.
  unfold Dec.lt, Dec.scaled. simpl.
  set (e := (exponent x - Z.min 0 (exponent x))%Z) in *.
  assert (0 < 10 ^ e)%Z by (apply Z.pow_pos_nonneg; lia).
  split; nia.
Qed.

(** A fee from 0 to 100 is a finite number that is not negative. *)
Lemma fee_in_range (v : option Number) :
  JS.le (JS.ofZ 0) v -> JS.le v (JS.ofZ 100) ->
  exists d, v = Some (Finite d) /\ (0 <= mantissa d)%Z.
Proof.
  destruct v as [[d| | |]|]; simpl; try done.
  intros H _. exists d. split; [done|]. by apply le_zero_mantissa.
Qed.

(** A fee below 0 is a negative finite number or the negative infinity. *)
Lemma fee_negative (v : option Number) :
  JS.lt v (JS.ofZ 0)
  <-> (exists d, v = Some (Finite d) /\ (mantissa d < 0)%Z) \/ v = Some NegInfinity.
Proof.
  destruct v as [[d| | |]|]; simpl.
  - rewrite lt_zero_mantissa. split.
    + intros H. left. by exists d.
    + by intros [(d' & [= <-] & H)|].
  - split; [done|]. by intros [(d' & [=] & _)|].
  - split; [by right|done].
  - split; [done|]. by intros [(d' & [=] & _)|].
  - split; [done|]. by intros [(d' & [=] & _)|].
Qed.

(** A fee above 0 is a positive finite number or the positive infinity. *)
Lemma fee_positive (v : option Number) :
  JS.lt (JS.ofZ 0) v
  <-> (exists d, v = Some (Finite d) /\ (0 < mantissa d)%Z) \/ v = Some PosInfinity.
Proof.
  destruct v as [[d| | |]|]; simpl.
  - rewrite zero_lt_mantissa. split.
    + intros H. left. by exists d.
    + by intros [(d' & [= <-] & H)|].
  - split; [by right|done].
  - split; [done|]. by intros [(d' & [=] & _)|].
  - split; [done|]. by intros [(d' & [=] & _)|].
  - split; [done|]. by intros [(d' & [=] & _)|].
Qed.

(** The digits of a positive number do not start with a zero. *)
Lemma nzhead_not_D0 (u u' : Decimal.uint) : Decimal.nzhead u <> Decimal.D0 u'.
Proof. induction u; simpl; try discriminate. exact IHu. Qed.

Lemma to_uint_head (p : positive) :
  match Pos.to_uint p with
  | Decimal.Nil | Decimal.D0 _ => False
  | _ => True
  end.
Proof.
  pose proof (DecimalPos.Unsigned.to_of (Pos.to_uint p)) as H.
  rewrite DecimalPos.Unsigned.of_to in H. simpl in H.
  pose proof (DecimalPos.Unsigned.to_uint_nonnil p) as Hnil.
  pose proof (DecimalPos.Unsigned.to_uint_nonzero p) as Hzero.
  destruct (Pos.to_uint p) as [|u|u|u|u|u|u|u|u|u|u]; try done.
  unfold Decimal.unorm in H. simpl in H.
  destruct (Decimal.nzhead u) eqn:E.
  - by apply Hzero.
  - by apply (nzhead_not_D0 u u0).
  - discriminate H.
  - discriminate H.
  - discriminate H.
  - discriminate H.
  - discriminate H.
  - discriminate H.
  - discriminate H.
  - discriminate H.
  - discriminate H.
Qed.

Lemma digits_head (m : Z) :
  (0 < m)%Z -> exists c r, Dec.digitsOfZ m = c :: r /\ c <> "0"%char.
Proof.
  intros Hm. destruct m as [|p|p]; try lia. unfold Dec.digitsOfZ. simpl.
  pose proof (to_uint_head p) as H.
  destruct (Pos.to_uint p); try done; simpl; eexists _, _; split; try reflexivity; discriminate.
Qed.

Lemma dropZeros_snoc (l : list ascii) (c : ascii) :
  c <> "0"%char -> exists l', Dec.dropZeros (l ++ [c]) = l' ++ [c].
Proof.
  intros Hc. induction l as [|a l IH]; simpl.
  - destruct (Ascii.eqb_spec c "0"%char); [done|]. by exists [].
  - destruct (Ascii.eqb a "0"%char); [exact IH|]. by exists (a :: l).
Qed.

Lemma stripped_head (m : Z) :
  (0 < m)%Z ->
  exists c r, rev (Dec.dropZeros (rev (Dec.digitsOfZ m))) = c :: r /\ c <> "0"%char.
Proof.
  intros Hm. destruct (digits_head m Hm) as (c & r & -> & Hc).
  simpl rev. destruct (dropZeros_snoc (rev r) c Hc) as (l' & ->).
  rewrite rev_app_distr. simpl. by exists c, (rev l').
Qed.

(** The text of a positive number starts with a digit that is not zero, or
    with a zero and a point. *)
Lemma positiveToString_head (m e : Z) :
  (0 < m)%Z ->
  (exists c t, Dec.positiveToString m e = String c t /\ c <> "0"%char)
  \/ (exists t, Dec.positiveToString m e = "0." +:+ t).
Proof.
  intros Hm. unfold Dec.positiveToString.
  destruct (stripped_head m Hm) as (c & r & -> & Hc).
  set (k := Z.of_nat (length (c :: r))).
  set (n := (Z.of_nat (length (Dec.digitsOfZ m)) + e)%Z).
  destruct ((k <=? n)%Z && (n <=? 21)%Z).
  { left. simpl. rewrite append_String. by eexists _, _. }
  destruct ((0 <? n)%Z && (n <=? 21)%Z) eqn:En.
  { left. apply andb_true_iff in En. destruct En as [En _]. apply Z.ltb_lt in En.
    destruct (Z.to_nat n) as [|j] eqn:Ej; [lia|].
    simpl. rewrite append_String. by eexists _, _. }
  destruct ((-6 <? n)%Z && (n <=? 0)%Z).
  { right. by eexists. }
  left. destruct r as [|b r]; rewrite append_String; by eexists _, _.
Qed.

Lemma positive_fee_span (d : FiniteDecimal) :
  (0 < mantissa d)%Z ->
  markup ["<span class=^fee-display^>"] +:+ Dec.toString d +:+ "% Fee</span>"
  <> markup ["<span class=^fee-display^>0% Fee</span>"].
Proof.
  intros Hd H.
  change (markup ["<span class=^fee-display^>0% Fee</span>"])
    with (markup ["<span class=^fee-display^>"] +:+ "0% Fee</span>") in H.
  apply String.app_inj in H. unfold Dec.toString in H.
  destruct (Z.eqb_spec (mantissa d) 0); [lia|].
  destruct (Z.ltb_spec (mantissa d) 0); [lia|].
  destruct (positiveToString_head (mantissa d) (exponent d) Hd) as [(c & t & Ht & Hc)|(t & Ht)];
    rewrite Ht in H.
  - rewrite append_String in H. injection H as -> _. done.
  - rewrite append_assoc in H. discriminate H.
Qed.

(** The span of the fee is the one of [0% Fee] exactly when [fee > 0] is
    false, and the attribute is [paid] exactly when [fee === 0] is false. *)
Lemma feeDisplay_zero_iff (v : option Number) :
  feeDisplay v = markup ["<span class=^fee-display^>0% Fee</span>"] <-> JS.gt0 v = false.
Proof.
  unfold feeDisplay. destruct (JS.gt0 v) eqn:E; [|done].
  split; [|done]. intros H. exfalso. rewrite !cat_cons, append_nil_r in H.
  destruct v as [[d| | |]|]; simpl in E; try done.
  apply (positive_fee_span d); [by apply Z.ltb_lt|exact H].
Qed.

Lemma dataFee_paid_iff (v : option Number) : dataFee v = "paid" <-> JS.isZero v = false.
Proof. unfold dataFee. by destruct (JS.isZero v). Qed.

Lemma feeDisplay_in_card (host : JSDate.Host) (f : Facilitator) :
  occursIn (feeDisplay (fee f)) (generateCard host f).
Proof. unfold generateCard. apply (occursIn_cat [_; _; _] [_]). Qed.

Lemma dataFee_in_card (host : JSDate.Host) (f : Facilitator) :
  occursIn (markup ["data-fee=^"] +:+ dataFee (fee f) +:+ markup ["^"]) (generateCard host f).
Proof.
  apply (occursIn_trans _ (cardHead f)).
  - unfold cardHead.
    apply (occursIn_cat_span
             [_; _; _; _] _ _ _ _
             (markup ["^"; "         "])
             (markup ["data-fee=^"])
             (markup ["^"])
             (markup [""; "         data-access=^"])); reflexivity.
  - unfold generateCard. apply (occursIn_cat [] [_; _; _; _]).
Qed.

(** C6: for a fee from 0 to 100, the card displays [0% Fee] when the fee is
    0, and the fee followed by [% Fee] otherwise. *)
Theorem fee_display (host : JSDate.Host) (f : Facilitator) :
  JS.le (JS.ofZ 0) (fee f) -> JS.le (fee f) (JS.ofZ 100) ->
  feeDisplay (fee f)
  = (if JS.isZero (fee f)
     then markup ["<span class=^fee-display^>0% Fee</span>"]
     else markup ["<span class=^fee-display^>"] +:+ JS.toString (fee f) +:+ "% Fee</span>")
  /\ occursIn (feeDisplay (fee f)) (generateCard host f).
Proof.
  intros H0 H100. split; [|apply feeDisplay_in_card].
  destruct (fee_in_range (fee f) H0 H100) as (d & -> & Hd).
  unfold feeDisplay, JS.gt0, JS.isZero, Dec.gt0, Dec.isZero.
  destruct (Z.eqb_spec (mantissa d) 0) as [->|Hne]; [done|].
  destruct (Z.ltb_spec 0 (mantissa d)); [|lia].
  by rewrite !cat_cons, append_nil_r.
Qed.

(** The fee of 2.5 percent of the specification. *)
Lemma fee_display_2_5 :
  JS.le (JS.ofZ 0) (fee facPaid) /\ JS.le (fee facPaid) (JS.ofZ 100)
  /\ feeDisplay (fee facPaid) = markup ["<span class=^fee-display^>2.5% Fee</span>"]
  /\ occursIn (markup ["<span class=^fee-display^>2.5% Fee</span>"])
              (generateCard JSDate.UTC facPaid).
Proof.
  assert (JS.le (JS.ofZ 0) (fee facPaid)) as H0 by (vm_compute; discriminate).
  assert (JS.le (fee facPaid) (JS.ofZ 100)) as H100 by (vm_compute; discriminate).
  exact (conj H0 (conj H100 (fee_display JSDate.UTC facPaid H0 H100))).
Defined.

Lemma zero_fee_span :
  feeDisplay (fee facA) = markup ["<span class=^fee-display^>0% Fee</span>"].
Proof. reflexivity. Qed.

(** C10, as it is stated, fails: the two tests do not disagree on the
    negative fees only.  The record of Treasure has no [fee]; its card
    displays [0% Fee] and its [data-fee] attribute is [paid], and an absent
    fee is not below 0. *)
Lemma absent_fee_display :
  fee facNoFee = None
  /\ ~ JS.lt (fee facNoFee) (JS.ofZ 0)
  /\ feeDisplay (fee facNoFee) = markup ["<span class=^fee-display^>0% Fee</span>"]
  /\ dataFee (fee facNoFee) = "paid"
  /\ occursIn (markup ["<span class=^fee-display^>0% Fee</span>"])
              (generateCard JSDate.UTC facNoFee)
  /\ occursIn (markup ["data-fee=^paid^"]) (generateCard JSDate.UTC facNoFee).
Proof.
  split; [reflexivity|]. split; [by intros H|].
  split; [reflexivity|]. split; [reflexivity|].
  split.
  - apply (feeDisplay_in_card JSDate.UTC facNoFee).
  - apply (dataFee_in_card JSDate.UTC facNoFee).
Qed.

(** C10, amended: for a negative fee the card displays [0% Fee] and its
    [data-fee] attribute is [paid]; and a card has this text together with
    this attribute exactly when the fee is negative, is NaN or is absent:
    the text is chosen by [fee > 0], the attribute by [fee === 0], and both
    tests are false on these fees and on no other. *)
Theorem negative_fee_display (host : JSDate.Host) (f : Facilitator) :
  JS.lt (fee f) (JS.ofZ 0) ->
  feeDisplay (fee f) = markup ["<span class=^fee-display^>0% Fee</span>"]
  /\ dataFee (fee f) = "paid"
  /\ occursIn (markup ["<span class=^fee-display^>0% Fee</span>"]) (generateCard host f)
  /\ occursIn (markup ["data-fee=^paid^"]) (generateCard host f)
  /\ forall g : Facilitator,
       (feeDisplay (fee g) = markup ["<span class=^fee-display^>0% Fee</span>"]
        /\ dataFee (fee g) = "paid")
       <-> (JS.lt (fee g) (JS.ofZ 0) \/ fee g = Some NaN \/ fee g = None).
Proof.
  assert (forall v : option Number,
            (feeDisplay v = markup ["<span class=^fee-display^>0% Fee</span>"]
             /\ dataFee v = "paid")
            <-> (JS.lt v (JS.ofZ 0) \/ v = Some NaN \/ v = None)) as Hiff.
  { intros v. rewrite feeDisplay_zero_iff, dataFee_paid_iff.
    destruct v as [[d| | |]|]; simpl.
    - rewrite lt_zero_mantissa. unfold Dec.gt0, Dec.isZero.
      rewrite Z.ltb_ge, Z.eqb_neq. split.
      + intros [H1 H2]. left. lia.
      + intros [H|[H|H]]; [lia|discriminate H|discriminate H].
    - split; [by intros [H _]|]. by intros [H|[H|H]].
    - split; [by left|done].
    - split; [by right; left|done].
    - split; [by right; right|done]. }
  intros Hneg.
  destruct (proj2 (Hiff (fee f)) (or_introl Hneg)) as [Hd Hp].
  split; [done|]. split; [done|].
  split; [rewrite <- Hd; apply feeDisplay_in_card|].
  split.
  - pose proof (dataFee_in_card host f) as H. by rewrite Hp in H.
  - intros g. apply Hiff.
Qed.

(** A fee of -0.5 percent. *)
Lemma negative_fee_display_witness :
  JS.lt (fee facNegative) (JS.ofZ 0)
  /\ feeDisplay (fee facNegative) = markup ["<span class=^fee-display^>0% Fee</span>"]
  /\ dataFee (fee facNegative) = "paid".
Proof.
  assert (JS.lt (fee facNegative) (JS.ofZ 0)) as Hneg by (vm_compute; reflexivity).
  destruct (negative_fee_display JSDate.UTC facNegative Hneg) as (Hd & Hp & _).
  exact (conj Hneg (conj Hd Hp)).
Defined.

(** ** Properties of the first-transaction block *)

Lemma dated_addr_loop (addrs : list FacilitatorAddress) (acc : list Date) :
  map getTime
    (fold_left (fun dates addr =>
                  match dateOfFirstTransaction addr with
                  | Some d => dates ++ [d]
                  | None => dates
                  end) addrs acc)
  = map getTime acc
    ++ concat (map (fun addr => match dateOfFirstTransaction addr with
                                | Some d => [getTime d]
                                | None => []
                                end) addrs).
Proof.
  revert acc. induction addrs as [|a addrs IH]; intros acc; simpl.
  - by rewrite app_nil_r.
  - rewrite IH. destruct (dateOfFirstTransaction a) as [d|]; simpl; [|done].
    by rewrite map_app, <- app_assoc.
Qed.

Lemma dated_bucket_loop (buckets : list (list FacilitatorAddress)) (acc : list Date) :
  map getTime
    (fold_left
       (fun dates addresses =>
          fold_left (fun dates addr =>
                       match dateOfFirstTransaction addr with
                       | Some d => dates ++ [d]
                       | None => dates
                       end) addresses dates)
       buckets acc)
  = map getTime acc
    ++ concat (map (fun addresses =>
                      concat (map (fun addr =>
                                     match dateOfFirstTransaction addr with
                                     | Some d => [getTime d]
                                     | None => []
                                     end) addresses))
                   buckets).
Proof.
  revert acc. induction buckets as [|b buckets IH]; intros acc; simpl.
  - by rewrite app_nil_r.
  - by rewrite IH, dated_addr_loop, <- app_assoc.
Qed.

Lemma getFirstTransactionDate_earliest (host : JSDate.Host) (f : Facilitator) :
  getFirstTransactionDate host f
  = match datedTimes f with
    | [] => None
    | t :: ts => Some (JSDate.toLocaleDateString host {| getTime := fold_left Z.min ts t |})
    end.
Proof. unfold getFirstTransactionDate. by rewrite dated_bucket_loop. Qed.

(** [Math.min] of a non-empty list is one of its members and is below all of
    them. *)
Lemma fold_min_spec (ts : list Z) (t : Z) :
  In (fold_left Z.min ts t) (t :: ts)
  /\ Forall (fun x => (fold_left Z.min ts t <= x)%Z) (t :: ts).
Proof.
  revert t. induction ts as [|u ts IH]; intros t; simpl.
  - split; [by left|]. repeat constructor. lia.
  - destruct (IH (Z.min t u)) as [Hin Hall]. split.
    + destruct Hin as [Heq|Hin]; [|by right; right].
      rewrite <- Heq. destruct (Z.min_spec t u) as [[_ ->]|[_ ->]]; [by left|by right; left].
    + inversion Hall as [|x l Hx Hl]; subst.
      constructor; [lia|]. constructor; [lia|done].
Qed.

Lemma toLocaleDateString_truthy (host : JSDate.Host) (d : Date) :
  JS.truthy (JSDate.toLocaleDateString host d) = true.
Proof.
  unfold JSDate.toLocaleDateString.
  destruct (JSDate.civilFromDays _) as [[y m] day].
  assert (exists c s, JSDate.monthShort m = String c s) as (c & s & ->); [|done].
  unfold JSDate.monthShort.
  destruct m as [|p|p]; [by eauto| |by eauto].
  do 4 (try destruct p as [p|p|]); eauto.
Qed.

(** The block is in the card exactly when some address carries a date. *)
Lemma first_transaction_block_present (host : JSDate.Host) (f : Facilitator) :
  firstTransactionBlock (getFirstTransactionDate host f) <> EmptyString
  <-> exists addrs a d,
        In addrs (values f) /\ In a addrs /\ dateOfFirstTransaction a = Some d.
Proof.
  rewrite getFirstTransactionDate_earliest. split.
  - destruct (datedTimes f) as [|t ts] eqn:E; [done|]. intros _.
    assert (In t (datedTimes f)) as Hin by (rewrite E; by left).
    unfold datedTimes in Hin. apply in_concat in Hin. destruct Hin as (l & Hl & Ht).
    apply in_map_iff in Hl. destruct Hl as (addrs & <- & Haddrs).
    apply in_concat in Ht. destruct Ht as (l' & Hl' & Ht).
    apply in_map_iff in Hl'. destruct Hl' as (a & <- & Ha).
    destruct (dateOfFirstTransaction a) as [d|] eqn:Ed; [|done].
    by exists addrs, a, d.
  - intros (addrs & a & d & Haddrs & Ha & Hd).
    assert (In (getTime d) (datedTimes f)) as Hin.
    { unfold datedTimes. apply in_concat. eexists. split.
      - apply in_map_iff. exists addrs. split; [reflexivity|done].
      - apply in_concat. eexists. split.
        + apply in_map_iff. exists a. split; [reflexivity|done].
        + rewrite Hd. by left. }
    destruct (datedTimes f) as [|t ts]; [done|].
    unfold firstTransactionBlock. rewrite toLocaleDateString_truthy.
    by rewrite cat_cons.
Qed.

(** A date written as a day, that is midnight UTC of the day, is displayed as
    that day on the hosts whose zone is UTC or east of it. *)
Lemma toLocaleDateString_east (host : JSDate.Host) (y m d : Z) :
  (0 <= JSDate.localTZA host (getTime (JSDate.dateOnly y m d)) < JSDate.msPerDay)%Z ->
  JSDate.toLocaleDateString host (JSDate.dateOnly y m d)
  = JSDate.toLocaleDateString JSDate.UTC (JSDate.dateOnly y m d).
Proof.
  intros H. unfold JSDate.toLocaleDateString.
  set (t := getTime (JSDate.dateOnly y m d)) in *.
  assert (((t + JSDate.localTZA host t) / JSDate.msPerDay
           = (t + JSDate.localTZA JSDate.UTC t) / JSDate.msPerDay)%Z) as ->; [|done].
  subst t. unfold JSDate.dateOnly, JSDate.msPerDay in *. simpl getTime in *.
  simpl JSDate.localTZA at 2. rewrite Z.add_0_r, Z.div_mul by lia.
  symmetry.
  apply (Z.div_unique_pos _ _ _
           (JSDate.localTZA host (JSDate.daysFromCivil y m d * 86400000)));
    [exact H|lia].
Qed.

Lemma first_transaction_utc :
  getFirstTransactionDate JSDate.UTC facDated = Some "Mar 1, 2025"
  /\ getFirstTransactionDate JSDate.UTC facA = None
  /\ firstTransactionBlock (getFirstTransactionDate JSDate.UTC facA) = EmptyString.
Proof. repeat split. Qed.

(** C4, on a host five hours west of UTC: the card of the facilitator of the
    example displays the day before the earliest date of the catalog. *)
Theorem first_transaction_west_of_utc :
  getFirstTransactionDate (JSDate.fixedOffset (-5)) facDated = Some "Feb 28, 2025"
  /\ occursIn (markup ["<span class=^info-value^>Feb 28, 2025</span>"])
              (firstTransactionBlock (getFirstTransactionDate (JSDate.fixedOffset (-5)) facDated))
  /\ countOcc "Mar 1, 2025" (generateCard (JSDate.fixedOffset (-5)) facDated) = 0.
Proof.
  split; [reflexivity|]. split; [|by vm_compute].
  exists (markup [""; "        <div class=^info-row^>";
                  "          <span class=^info-label^>First Transaction</span>";
                  "          "]),
         (markup [""; "        </div>"; "        "]).
  by vm_compute.
Qed.

(** ** Properties of the compositor *)

Lemma splitFirst_eq (pat s : string) :
  JSString.splitFirst pat s
  = match dropPrefix pat s with
    | Some following => Some (EmptyString, following)
    | None =>
        match s with
        | EmptyString => None
        | String c r =>
            match JSString.splitFirst pat r with
            | Some (preceding, following) => Some (String c preceding, following)
            | None => None
            end
        end
    end.
Proof. by destruct s. Qed.

Lemma splitFirst_Some (pat s pre post : string) :
  JSString.splitFirst pat s = Some (pre, post) -> s = pre +:+ pat +:+ post.
Proof.
  revert pre. induction s as [|c s IH]; intros pre; rewrite splitFirst_eq;
    destruct (dropPrefix pat _) as [r|] eqn:E;
    try (intros [= <- <-]; rewrite append_nil_l; by apply dropPrefix_Some).
  destruct (JSString.splitFirst pat s) as [[p f]|]; [|done].
  intros [= <- <-]. rewrite append_String. f_equal. by apply IH.
Qed.

(** No occurrence of the token starts before the one that is replaced. *)
Lemma splitFirst_first (pat s pre post : string) :
  JSString.splitFirst pat s = Some (pre, post) ->
  forall pre' post', s = pre' +:+ pat +:+ post' -> String.length pre <= String.length pre'.
Proof.
  revert pre. induction s as [|c s IH]; intros pre; rewrite splitFirst_eq;
    destruct (dropPrefix pat _) as [r|] eqn:E;
    try (intros [= <- <-] pre' post' _; simpl; lia).
  destruct (JSString.splitFirst pat s) as [[p f]|]; [|done].
  intros [= <- <-] pre' post' Hs. destruct pre' as [|c' pre'].
  - rewrite append_nil_l in Hs. rewrite Hs, dropPrefix_app in E. done.
  - rewrite append_String in Hs. injection Hs as -> Hs.
    simpl. apply le_n_S. by apply (IH p eq_refl pre' post').
Qed.

Lemma splitFirst_None (pat s : string) :
  JSString.splitFirst pat s = None <-> ~ occursIn pat s.
Proof.
  split.
  - intros Hnone (pre & post & ->). revert Hnone.
    induction pre as [|c pre IH]; rewrite splitFirst_eq.
    + by rewrite append_nil_l, dropPrefix_app.
    + rewrite append_String.
      destruct (dropPrefix pat _); [done|].
      destruct (JSString.splitFirst pat _) as [[p f]|]; [done|]. by intros _; apply IH.
  - intros Hno. destruct (JSString.splitFirst pat s) as [[p f]|] eqn:E; [|done].
    exfalso. apply Hno. exists p, f. by apply splitFirst_Some.
Qed.

Lemma getSubstitution_no_dollar (matched preceding following text : string) :
  hasDollar text = false ->
  JSString.getSubstitution matched preceding following text = text.
Proof.
  induction text as [|c text IH]; [done|]. simpl.
  destruct (Ascii.eqb c "$"%char); [done|]. simpl.
  intros H. by rewrite IH.
Qed.

Lemma replace_no_dollar (token text s : string) :
  hasDollar text = false -> JSString.replace token text s = substitute token text s.
Proof.
  intros H. unfold JSString.replace, substitute.
  destruct (JSString.splitFirst token s) as [[p f]|]; [|done].
  by rewrite getSubstitution_no_dollar.
Qed.

(** A template without a token is left as it is by the replacement of that
    token. *)
Lemma replace_absent_token (token text s : string) :
  ~ occursIn token s -> JSString.replace token text s = s.
Proof.
  intros H. apply splitFirst_None in H. unfold JSString.replace. by rewrite H.
Qed.

Lemma string_of_uint_no_dollar (d : Decimal.uint) :
  hasDollar (NilEmpty.string_of_uint d) = false.
Proof. induction d; simpl; done. Qed.

Lemma natToString_no_dollar (n : nat) : hasDollar (natToString n) = false.
Proof. apply string_of_uint_no_dollar. Qed.

(** When no dollar sign is in the text of the cards, the page is the template
    with the four tokens substituted, each once, by the three totals in
    decimal and by the cards. *)
Lemma page_verbatim (host : JSDate.Host) (template : string) (sorted : list Facilitator) :
  hasDollar (join nl (map (generateCard host) sorted)) = false ->
  page host template sorted
  = substitute "{{FACILITATOR_CARDS}}" (join nl (map (generateCard host) sorted))
      (substitute "{{TOTAL_ADDRESSES}}" (natToString (getTotalAddresses sorted))
         (substitute "{{TOTAL_NETWORKS}}" (natToString (getTotalNetworks sorted))
            (substitute "{{TOTAL_FACILITATORS}}" (natToString (length sorted))
               template))).
Proof.
  intros H. unfold page.
  by rewrite (replace_no_dollar _ _ _ H), !(replace_no_dollar _ _ _ (natToString_no_dollar _)).
Qed.

(** C3, on a catalog whose cards have a dollar sign: the text that replaces
    [{{FACILITATOR_CARDS}}] is not the text of the cards; the two dollar signs
    of the name have become one. *)
Theorem cards_not_verbatim :
  let cards := facilitatorCards JSDate.UTC [facDollar] in
  let html := fst (generateHTML JSDate.UTC "{{FACILITATOR_CARDS}}" [facDollar]) in
  html <> cards
  /\ countOcc "Pay$$" cards = 2
  /\ countOcc "Pay$$" html = 0
  /\ countOcc "Pay$" html = 2.
Proof. vm_compute. repeat split; discriminate. Qed.

(** ** Further properties of the aggregator and of the ordering *)

Lemma getTotalAddresses_sum (fs : list Facilitator) :
  getTotalAddresses fs = list_sum (map getTotalAddressesForFacilitator fs).
Proof.
  unfold getTotalAddresses. rewrite facilitator_loop. simpl.
  f_equal. apply map_ext. intros f. by rewrite getTotalAddressesForFacilitator_sum.
Qed.

Lemma list_sum_perm (l k : list nat) : Permutation l k -> list_sum l = list_sum k.
Proof. induction 1; simpl; lia. Qed.

Lemma getTotalAddresses_perm (fs gs : list Facilitator) :
  Permutation fs gs -> getTotalAddresses fs = getTotalAddresses gs.
Proof.
  intros H. rewrite !getTotalAddresses_sum. apply list_sum_perm. by apply Permutation_map.
Qed.

Lemma networksOf_perm (fs gs : list Facilitator) :
  Permutation fs gs -> networksOf fs = networksOf gs.
Proof.
  intros H. apply set_eq. intros n. rewrite !elem_of_networksOf.
  split; intros (f & Hf & Hn); exists f; split; try done.
  - by rewrite <- H.
  - by rewrite H.
Qed.

Lemma getTotalNetworks_perm (fs gs : list Facilitator) :
  Permutation fs gs -> getTotalNetworks fs = getTotalNetworks gs.
Proof. intros H. by rewrite !getTotalNetworks_size, (networksOf_perm _ _ H). Qed.

(** X1: the three statistics do not depend on the order of the catalog: a
    reordered catalog has the same number of facilitators, of networks and of
    addresses. *)
Theorem totals_invariant_under_reordering (catalog reordered : list Facilitator) :
  Permutation catalog reordered ->
  length reordered = length catalog
  /\ getTotalNetworks reordered = getTotalNetworks catalog
  /\ getTotalAddresses reordered = getTotalAddresses catalog.
Proof.
  intros H. split; [by rewrite (Permutation_length H)|].
  split; [by rewrite (getTotalNetworks_perm _ _ H)|by rewrite (getTotalAddresses_perm _ _ H)].
Qed.

Lemma totals_invariant_under_reordering_witness :
  length [facB; facA] = length [facA; facB]
  /\ getTotalNetworks [facB; facA] = getTotalNetworks [facA; facB]
  /\ getTotalAddresses [facB; facA] = getTotalAddresses [facA; facB].
Proof. apply totals_invariant_under_reordering. apply perm_swap. Defined.

(** X2: the total of the page is the sum of the address counts that order the
    cards, and no facilitator has more addresses than the total. *)
Theorem total_addresses_is_sum_of_counts (catalog : list Facilitator) :
  getTotalAddresses catalog = list_sum (map getTotalAddressesForFacilitator catalog)
  /\ forall f, In f catalog -> getTotalAddressesForFacilitator f <= getTotalAddresses catalog.
Proof.
  split; [apply getTotalAddresses_sum|].
  intros f Hf. rewrite getTotalAddresses_sum.
  induction catalog as [|g gs IH]; [done|].
  simpl. destruct Hf as [->|Hf]; [lia|]. specialize (IH Hf). lia.
Qed.

Lemma networksOf_nil_iff (fs : list Facilitator) :
  networksOf fs = ∅ <-> forall f, In f fs -> addresses f = [].
Proof.
  split.
  - intros H f Hf. destruct (addresses f) as [|[n b] r] eqn:E; [done|]. exfalso.
    assert (n ∈ networksOf fs) as Hn.
    { apply elem_of_networksOf. exists f. split; [by apply list_elem_of_In|].
      rewrite E. simpl. by left. }
    rewrite H in Hn. by apply not_elem_of_empty in Hn.
  - intros H. apply set_eq. intros n. rewrite elem_of_networksOf. split.
    + intros (f & Hf & Hn). apply list_elem_of_In in Hf. rewrite (H f Hf) in Hn.
      by apply elem_of_nil in Hn.
    + intros Hn. by apply not_elem_of_empty in Hn.
Qed.

(** X3: the number of networks is at most three and at most the number of
    buckets of the catalog, and it is zero exactly when no facilitator has a
    bucket; a bucket counts whether or not it holds an address. *)
Theorem total_networks_bounds (catalog : list Facilitator) :
  getTotalNetworks catalog <= 3
  /\ getTotalNetworks catalog <= list_sum (map (fun f => length (addresses f)) catalog)
  /\ (getTotalNetworks catalog = 0 <-> forall f, In f catalog -> addresses f = []).
Proof.
  rewrite getTotalNetworks_size. split; [|split].
  - change 3 with (size ({[BASE; POLYGON; SOLANA]} : gset Network)).
    apply subseteq_size. intros n _. destruct n; set_solver.
  - unfold networksOf.
    assert (forall l : list Network, size (list_to_set l : gset Network) <= length l) as Hle.
    { intros l. unfold size, set_size. simpl. apply NoDup_incl_length.
      - apply NoDup_ListNoDup, NoDup_elements.
      - intros x Hx. apply list_elem_of_In, elem_of_elements, elem_of_list_to_set in Hx.
        by apply list_elem_of_In. }
    etransitivity; [apply Hle|]. apply Nat.eq_le_incl.
    induction catalog as [|f fs IH]; [done|].
    simpl. by rewrite length_app, length_map, IH.
  - rewrite size_empty_iff. rewrite <- networksOf_nil_iff. split; [by apply leibniz_equiv|by intros ->].
Qed.

(** X4: the first card is the one of a facilitator of the catalog that no
    other has more addresses than; only an empty catalog has no first card. *)
Theorem most_addresses_first (catalog : list Facilitator) :
  match JSArray.sort compareByAddresses catalog with
  | [] => catalog = []
  | first :: _ =>
      In first catalog
      /\ forall f, In f catalog -> addressCountOf f <= addressCountOf first
  end.
Proof.
  pose proof (sort_perm compareByAddresses catalog) as Hp.
  pose proof (sort_sorted addressCountOf compareByAddresses compareByAddresses_key catalog) as Hs.
  destruct (JSArray.sort compareByAddresses catalog) as [|x r].
  - by apply Permutation_nil.
  - split.
    + apply (Permutation_in x (Permutation_sym Hp)). by left.
    + intros f Hf. apply (Permutation_in f Hp) in Hf. destruct Hf as [->|Hf]; [done|].
      inversion Hs as [|? ? _ Hall]; subst. rewrite List.Forall_forall in Hall. by apply Hall.
Qed.

(** ** Further properties of the first-transaction date *)
Lemma in_datedTimes (f : Facilitator) (t : Z) :
  In t (datedTimes f)
  <-> exists addrs a d, In addrs (values f) /\ In a addrs
                        /\ dateOfFirstTransaction a = Some d /\ getTime d = t.
Proof.
  unfold datedTimes. rewrite in_concat. split.
  - intros (l & Hl & Ht). apply in_map_iff in Hl. destruct Hl as (addrs & <- & Haddrs).
    apply in_concat in Ht. destruct Ht as (l' & Hl' & Ht).
    apply in_map_iff in Hl'. destruct Hl' as (a & <- & Ha).
    destruct (dateOfFirstTransaction a) as [d|] eqn:Ed; [|done].
    destruct Ht as [<-|[]]. by exists addrs, a, d.
  - intros (addrs & a & d & Haddrs & Ha & Hd & <-). eexists. split.
    + apply in_map_iff. exists addrs. split; [reflexivity|done].
    + apply in_concat. eexists. split.
      * apply in_map_iff. exists a. split; [reflexivity|done].
      * rewrite Hd. by left.
Qed.

(** X5: [getFirstTransactionDate] returns [null] exactly when no address of
    the facilitator carries a date. *)
Theorem first_transaction_none_iff (host : JSDate.Host) (f : Facilitator) :
  getFirstTransactionDate host f = None
  <-> forall addrs a, In addrs (values f) -> In a addrs -> dateOfFirstTransaction a = None.
Proof.
  rewrite getFirstTransactionDate_earliest. split.
  - intros H addrs a Haddrs Ha. destruct (dateOfFirstTransaction a) as [d|] eqn:Ed; [|done].
    assert (In (getTime d) (datedTimes f)) as Hin by (apply in_datedTimes; by exists addrs, a, d).
    destruct (datedTimes f); [done|discriminate].
  - intros H. destruct (datedTimes f) as [|t ts] eqn:E; [done|]. exfalso.
    assert (In t (datedTimes f)) as Hin by (rewrite E; by left).
    apply in_datedTimes in Hin. destruct Hin as (addrs & a & d & Haddrs & Ha & Hd & _).
    by rewrite (H addrs a Haddrs Ha) in Hd.
Qed.

(** X6: a date that [getFirstTransactionDate] returns is the text of the
    instant of one of the dated addresses, and no dated address is earlier. *)
Theorem first_transaction_is_earliest (host : JSDate.Host) (f : Facilitator) (s : string) :
  getFirstTransactionDate host f = Some s ->
  exists t : Z,
    s = JSDate.toLocaleDateString host {| getTime := t |}
    /\ (exists addrs a d, In addrs (values f) /\ In a addrs
                          /\ dateOfFirstTransaction a = Some d /\ getTime d = t)
    /\ forall addrs a d, In addrs (values f) -> In a addrs ->
                         dateOfFirstTransaction a = Some d -> (t <= getTime d)%Z.
Proof.
  rewrite getFirstTransactionDate_earliest.
  destruct (datedTimes f) as [|t ts] eqn:E; [done|]. intros [= <-].
  destruct (fold_min_spec ts t) as [Hin Hall]. rewrite <- E in Hin, Hall.
  exists (fold_left Z.min ts t). split; [done|]. split.
  - by apply in_datedTimes.
  - intros addrs a d Haddrs Ha Hd. rewrite List.Forall_forall in Hall. apply Hall.
    apply in_datedTimes. by exists addrs, a, d.
Qed.

Lemma first_transaction_is_earliest_witness :
  getFirstTransactionDate JSDate.UTC facDated = Some "Mar 1, 2025"
  /\ exists t : Z,
       "Mar 1, 2025" = JSDate.toLocaleDateString JSDate.UTC {| getTime := t |}
       /\ (exists addrs a d, In addrs (values facDated) /\ In a addrs
                             /\ dateOfFirstTransaction a = Some d /\ getTime d = t)
       /\ forall addrs a d, In addrs (values facDated) -> In a addrs ->
                            dateOfFirstTransaction a = Some d -> (t <= getTime d)%Z.
Proof.
  exact (conj eq_refl (first_transaction_is_earliest JSDate.UTC facDated "Mar 1, 2025" eq_refl)).
Defined.

Lemma toLocaleDateString_midnight (host : JSDate.Host) (k : Z) :
  (0 <= JSDate.localTZA host (k * JSDate.msPerDay) < JSDate.msPerDay)%Z ->
  JSDate.toLocaleDateString host {| getTime := k * JSDate.msPerDay |}
  = JSDate.toLocaleDateString JSDate.UTC {| getTime := k * JSDate.msPerDay |}.
Proof.
  intros H. unfold JSDate.toLocaleDateString. simpl getTime.
  assert (((k * JSDate.msPerDay + JSDate.localTZA host (k * JSDate.msPerDay)) / JSDate.msPerDay
           = (k * JSDate.msPerDay + JSDate.localTZA JSDate.UTC (k * JSDate.msPerDay))
             / JSDate.msPerDay)%Z) as ->; [|done].
  unfold JSDate.msPerDay in *. simpl JSDate.localTZA at 2.
  rewrite Z.add_0_r, Z.div_mul by lia. symmetry.
  apply (Z.div_unique_pos _ _ _ (JSDate.localTZA host (k * 86400000))); [exact H|lia].
Qed.

(** X7: on a host whose zone is UTC or east of it by less than a day, a
    facilitator whose dates are all midnights UTC is given the date it is
    given on a host at UTC. *)
Theorem first_transaction_east_of_utc (host : JSDate.Host) (f : Facilitator) :
  (forall t, 0 <= JSDate.localTZA host t < JSDate.msPerDay)%Z ->
  (forall addrs a d, In addrs (values f) -> In a addrs -> dateOfFirstTransaction a = Some d ->
                     exists k, getTime d = (k * JSDate.msPerDay)%Z) ->
  getFirstTransactionDate host f = getFirstTransactionDate JSDate.UTC f.
Proof.
  intros Hhost Hdays. rewrite !getFirstTransactionDate_earliest.
  destruct (datedTimes f) as [|t ts] eqn:E; [done|]. f_equal.
  destruct (fold_min_spec ts t) as [Hin _]. rewrite <- E in Hin.
  apply in_datedTimes in Hin. destruct Hin as (addrs & a & d & Haddrs & Ha & Hd & Ht).
  destruct (Hdays addrs a d Haddrs Ha Hd) as [k Hk].
  rewrite <- Ht, Hk. apply toLocaleDateString_midnight, Hhost.
Qed.

Lemma dateOnly_midnight (y m d : Z) :
  exists k, getTime (JSDate.dateOnly y m d) = (k * JSDate.msPerDay)%Z.
Proof. by exists (JSDate.daysFromCivil y m d). Qed.

Lemma first_transaction_east_of_utc_witness :
  getFirstTransactionDate (JSDate.fixedOffset 9) facDated
  = getFirstTransactionDate JSDate.UTC facDated.
Proof.
  apply first_transaction_east_of_utc.
  - intros t. simpl. unfold JSDate.msPerDay. lia.
  - intros addrs a d Haddrs Ha Hd. simpl in Haddrs.
    destruct Haddrs as [<-|[<-|[]]]; simpl in Ha.
    + destruct Ha as [<-|[<-|[]]]; simpl in Hd; [|done].
      injection Hd as <-. apply dateOnly_midnight.
    + destruct Ha as [<-|[]]; simpl in Hd. injection Hd as <-. apply dateOnly_midnight.
Defined.

(** ** Further properties of the card *)
(** A facilitator without an access type has the card of the same
    facilitator with the access type [open]. *)
Lemma absent_access_type_is_open (host : JSDate.Host) (f : Facilitator) :
  generateCard host (withAccessType None f) = generateCard host (withAccessType (Some open) f).
Proof. reflexivity. Qed.



Lemma generateAddressList_rows (f : Facilitator) : generateAddressList f = cat (addressRows f).
Proof. unfold generateAddressList. by rewrite entry_loop, join_empty. Qed.

(** X8: the address list is the rows of the addresses, bucket after bucket in
    the order of the [addresses] object and address after address within a
    bucket; it has as many rows as the card counts addresses, and is empty
    when there is none. *)
Theorem address_list_in_order (f : Facilitator) :
  generateAddressList f
  = cat (concat (map (fun entry => map (addressItem (fst entry)) (snd entry)) (addresses f)))
  /\ length (concat (map (fun entry => map (addressItem (fst entry)) (snd entry)) (addresses f)))
     = getTotalAddressesForFacilitator f
  /\ (getTotalAddressesForFacilitator f = 0 -> generateAddressList f = EmptyString).
Proof.
  assert (length (addressRows f) = getTotalAddressesForFacilitator f) as Hlen.
  { rewrite getTotalAddressesForFacilitator_sum. unfold addressRows, values.
    induction (addresses f) as [|e es IH]; [done|].
    simpl. by rewrite length_app, length_map, IH. }
  split; [apply generateAddressList_rows|]. split; [exact Hlen|].
  intros H0. rewrite generateAddressList_rows. rewrite H0 in Hlen.
  by destruct (addressRows f).
Qed.

Lemma addressList_in_card (host : JSDate.Host) (f : Facilitator) :
  occursIn (generateAddressList f) (generateCard host f).
Proof.
  apply (occursIn_trans _ (cardTail host f)).
  - unfold cardTail. apply (occursIn_cat [_; _; _; _; _; _; _; _; _; _; _] [_; _; _; _; _]).
  - unfold generateCard. apply (occursIn_cat [_; _; _; _] []).
Qed.

(** X9: every address of a facilitator has its row on the card, and the row
    shows the address as it is. *)
Theorem every_address_on_the_card (host : JSDate.Host) (f : Facilitator) (n : Network)
    (addrs : list FacilitatorAddress) (a : FacilitatorAddress) :
  In (n, addrs) (addresses f) -> In a addrs ->
  occursIn (addressItem n a) (generateCard host f)
  /\ occursIn (address a) (addressItem n a).
Proof.
  intros Hn Ha. split.
  - apply (occursIn_trans _ (generateAddressList f)).
    + by apply (address_list_rows f n addrs a).
    + apply addressList_in_card.
  - unfold addressItem. apply (occursIn_cat [_; _; _; _; _] [_; _; _; _; _; _; _; _; _]).
Qed.

Lemma every_address_on_the_card_witness :
  occursIn (addressItem SOLANA (plainAddress "SoA3")) (generateCard JSDate.UTC facA)
  /\ occursIn "SoA3" (addressItem SOLANA (plainAddress "SoA3")).
Proof.
  apply (every_address_on_the_card JSDate.UTC facA SOLANA [plainAddress "SoA3"]).
  - simpl. right. by left.
  - simpl. by left.
Defined.

(** X10: the card displays, as its address count, the number that orders the
    cards. *)
Theorem card_shows_the_address_count (host : JSDate.Host) (f : Facilitator) :
  occursIn (markup ["<span class=^addresses-count^>"]
            +:+ natToString (getTotalAddressesForFacilitator f) +:+ "</span>")
           (generateCard host f).
Proof.
  apply (occursIn_trans _ (cardTail host f)).
  - unfold cardTail, getTotalAddressesForFacilitator.
    apply (occursIn_cat_span
             [_; _; _; _; _; _; _; _] _ _ _ _
             (markup ["')^>"; "            <span class=^info-label^>Addresses</span>";
                      "            "])
             (markup ["<span class=^addresses-count^>"])
             "</span>"
             (markup [""; "          </div>"; "          ";
                      "          <div class=^address-list^>"; "            "]));
      reflexivity.
  - unfold generateCard. apply (occursIn_cat [_; _; _; _] []).
Qed.

(** X11: no upper bound is put on the fee: every positive fee, also one above
    100, is displayed as it is, on a card that is marked [paid]. *)
Theorem fee_not_clamped (host : JSDate.Host) (f : Facilitator) :
  JS.lt (JS.ofZ 0) (fee f) ->
  feeDisplay (fee f)
  = markup ["<span class=^fee-display^>"] +:+ JS.toString (fee f) +:+ "% Fee</span>"
  /\ dataFee (fee f) = "paid"
  /\ occursIn (feeDisplay (fee f)) (generateCard host f).
Proof.
  intros H. split; [|split; [|apply feeDisplay_in_card]].
  - apply fee_positive in H. destruct H as [(d & -> & Hpos)| ->].
    + unfold feeDisplay, JS.gt0, Dec.gt0. destruct (Z.ltb_spec 0 (mantissa d)); [|lia].
      by rewrite !cat_cons, append_nil_r.
    + reflexivity.
  - apply fee_positive in H. destruct H as [(d & -> & Hpos)| ->]; [|done].
    unfold dataFee, JS.isZero, Dec.isZero. by destruct (Z.eqb_spec (mantissa d) 0); [lia|].
Qed.



Lemma fee_not_clamped_witness :
  JS.lt (JS.ofZ 0) (fee facCostly)
  /\ feeDisplay (fee facCostly) = markup ["<span class=^fee-display^>150% Fee</span>"]
  /\ dataFee (fee facCostly) = "paid"
  /\ occursIn (feeDisplay (fee facCostly)) (generateCard JSDate.UTC facCostly).
Proof.
  assert (JS.lt (JS.ofZ 0) (fee facCostly)) as H by (vm_compute; reflexivity).
  exact (conj H (fee_not_clamped JSDate.UTC facCostly H)).
Defined.

(** X12: two explorer links are the same only for the same network and the
    same address. *)
Theorem explorer_url_injective (a a' : string) (n n' : Network) :
  getExplorerUrl a n = getExplorerUrl a' n' -> n = n' /\ a = a'.
Proof.
  destruct n, n'; unfold getExplorerUrl; intros H;
    try (repeat rewrite append_String in H; discriminate H).
  all: split; [done|]; by apply String.app_inj in H.
Qed.

Lemma explorer_url_injective_witness :
  BASE = BASE /\ "0xa1" = "0xa1".
Proof. by apply (explorer_url_injective "0xa1" "0xa1" BASE BASE). Defined.

(** ** Further properties of the compositor *)
(** X13: a template with none of the four tokens is returned as it is, for
    every catalog. *)
Theorem template_without_tokens_unchanged
  (host : JSDate.Host) (template : string) (catalog : list Facilitator) :
  ~ occursIn "{{TOTAL_FACILITATORS}}" template ->
  ~ occursIn "{{TOTAL_NETWORKS}}" template ->
  ~ occursIn "{{TOTAL_ADDRESSES}}" template ->
  ~ occursIn "{{FACILITATOR_CARDS}}" template ->
  fst (generateHTML host template catalog) = template.
Proof.
  intros H1 H2 H3 H4. rewrite generateHTML_run. cbn [fst]. unfold page.
  rewrite (replace_absent_token "{{TOTAL_FACILITATORS}}" _ template H1).
  rewrite (replace_absent_token "{{TOTAL_NETWORKS}}" _ template H2).
  rewrite (replace_absent_token "{{TOTAL_ADDRESSES}}" _ template H3).
  by rewrite (replace_absent_token "{{FACILITATOR_CARDS}}" _ template H4).
Qed.

Lemma template_without_tokens_unchanged_witness :
  fst (generateHTML JSDate.UTC "<html>{{TOTAL}}</html>" [facDollar; facA])
  = "<html>{{TOTAL}}</html>".
Proof.
  apply template_without_tokens_unchanged; apply splitFirst_None; reflexivity.
Defined.

(** X14: a replacement text without a dollar sign replaces the first
    occurrence of the token and no other, as it is; a text without the token
    is returned unchanged. *)
Theorem replace_first_occurrence_only (token text s : string) :
  hasDollar text = false ->
  (~ occursIn token s /\ JSString.replace token text s = s)
  \/ exists pre post,
       s = pre +:+ token +:+ post
       /\ JSString.replace token text s = pre +:+ text +:+ post
       /\ forall pre' post', s = pre' +:+ token +:+ post' ->
                             String.length pre <= String.length pre'.
Proof.
  intros H. rewrite (replace_no_dollar _ _ _ H). unfold substitute.
  destruct (JSString.splitFirst token s) as [[pre post]|] eqn:E.
  - right. exists pre, post. split; [by apply splitFirst_Some|]. split; [done|].
    apply (splitFirst_first _ _ _ _ E).
  - left. split; [by apply splitFirst_None|done].
Qed.

Lemma replace_first_occurrence_only_witness :
  (~ occursIn "{{N}}" "a{{N}}b{{N}}" /\ JSString.replace "{{N}}" "7" "a{{N}}b{{N}}" = "a{{N}}b{{N}}")
  \/ exists pre post,
       "a{{N}}b{{N}}" = pre +:+ "{{N}}" +:+ post
       /\ JSString.replace "{{N}}" "7" "a{{N}}b{{N}}" = pre +:+ "7" +:+ post
       /\ forall pre' post', "a{{N}}b{{N}}" = pre' +:+ "{{N}}" +:+ post' ->
                             String.length pre <= String.length pre'.
Proof. exact (replace_first_occurrence_only "{{N}}" "7" "a{{N}}b{{N}}" eq_refl). Defined.

(** X15: the three totals are those of the catalog as it was before the
    sort, and each is put, as its decimal digits, in the place of the first
    occurrence of its token, whatever the catalog holds. *)
Theorem totals_inserted_verbatim
  (host : JSDate.Host) (template : string) (catalog : list Facilitator) :
  fst (generateHTML host template catalog)
  = JSString.replace "{{FACILITATOR_CARDS}}" (facilitatorCards host catalog)
      (substitute "{{TOTAL_ADDRESSES}}" (natToString (getTotalAddresses catalog))
         (substitute "{{TOTAL_NETWORKS}}" (natToString (getTotalNetworks catalog))
            (substitute "{{TOTAL_FACILITATORS}}" (natToString (length catalog))
               template))).
Proof.
  rewrite generateHTML_run. cbn [fst]. unfold page, facilitatorCards.
  pose proof (sort_perm compareByAddresses catalog) as H.
  rewrite <- (getTotalAddresses_perm _ _ H), <- (getTotalNetworks_perm _ _ H),
    <- (Permutation_length H).
  by rewrite !(replace_no_dollar _ _ _ (natToString_no_dollar _)).
Qed.

(** X16: when the text of the cards has no dollar sign, the page is the
    template with the first occurrence of each token replaced by its value as
    it is. *)
Theorem cards_verbatim_without_dollar
  (host : JSDate.Host) (template : string) (catalog : list Facilitator) :
  hasDollar (facilitatorCards host catalog) = false ->
  fst (generateHTML host template catalog)
  = substitute "{{FACILITATOR_CARDS}}" (facilitatorCards host catalog)
      (substitute "{{TOTAL_ADDRESSES}}" (natToString (getTotalAddresses catalog))
         (substitute "{{TOTAL_NETWORKS}}" (natToString (getTotalNetworks catalog))
            (substitute "{{TOTAL_FACILITATORS}}" (natToString (length catalog))
               template))).
Proof.
  intros H. rewrite generateHTML_run. cbn [fst]. rewrite (page_verbatim _ _ _ H).
  pose proof (sort_perm compareByAddresses catalog) as Hp. unfold facilitatorCards.
  by rewrite <- (getTotalAddresses_perm _ _ Hp), <- (getTotalNetworks_perm _ _ Hp),
    <- (Permutation_length Hp).
Qed.

Lemma cards_verbatim_without_dollar_witness :
  fst (generateHTML JSDate.UTC "{{TOTAL_FACILITATORS}}:{{FACILITATOR_CARDS}}" [facB])
  = "1:" +:+ generateCard JSDate.UTC facB.
Proof.
  rewrite (cards_verbatim_without_dollar JSDate.UTC _ [facB]).
  - vm_compute. reflexivity.
  - vm_compute. reflexivity.
Defined.

(** X17: an empty catalog gives the page with the three totals 0 and nothing
    in the place of the cards, and stays empty. *)
Theorem empty_catalog_page (host : JSDate.Host) (template : string) :
  generateHTML host template []
  = (substitute "{{FACILITATOR_CARDS}}" EmptyString
       (substitute "{{TOTAL_ADDRESSES}}" "0"
          (substitute "{{TOTAL_NETWORKS}}" "0"
             (substitute "{{TOTAL_FACILITATORS}}" "0" template))),
     []).
Proof.
  rewrite generateHTML_run. simpl JSArray.sort.
  by rewrite (page_verbatim host template []).
Qed.

(** ** Properties of the build *)

Lemma bind_run {A B : Type} (m : IO A) (k : A -> IO B) (w : World) :
  (m ≫= k) w
  = match m w with
    | (Returned a, w') => k a w'
    | (Thrown e, w') => (Thrown e, w')
    end.
Proof. reflexivity. Qed.



Section Keeps.
Context (R : World -> World -> Prop).
Hypothesis R_refl : forall w, R w w.
Hypothesis R_trans : forall w1 w2 w3, R w1 w2 -> R w2 w3 -> R w1 w3.

Lemma keeps_ret {A : Type} (a : A) : keeps R (mret a : IO A).
Proof. intros w. apply R_refl. Qed.

Lemma keeps_bind {A B : Type} (m : IO A) (k : A -> IO B) :
  keeps R m -> (forall a, keeps R (k a)) -> keeps R (m ≫= k).
Proof.
  intros Hm Hk w. rewrite bind_run. specialize (Hm w).
  destruct (m w) as [[a|e] w']; simpl in *; [|done].
  eapply R_trans; [exact Hm|apply Hk].
Qed.

Lemma keeps_tryCatch {A : Type} (body handler : IO A) :
  keeps R body -> keeps R handler -> keeps R (tryCatch body handler).
Proof.
  intros Hb Hh w. unfold tryCatch. specialize (Hb w).
  destruct (body w) as [[a|e] w']; simpl in *; [done|].
  eapply R_trans; [exact Hb|apply Hh].
Qed.

Lemma keeps_forEach {A : Type} (l : list A) (body : A -> IO unit) :
  (forall x, In x l -> keeps R (body x)) -> keeps R (forEach l body).
Proof.
  induction l as [|x l IH]; intros H; simpl.
  - apply keeps_ret.
  - apply keeps_bind; [apply H; by left|]. intros _. apply IH. intros y Hy. apply H. by right.
Qed.

End Keeps.



Lemma sameFilesOutside_refl ps w : sameFilesOutside ps w w.
Proof. by intros p _. Qed.

Lemma sameFilesOutside_trans ps w1 w2 w3 :
  sameFilesOutside ps w1 w2 -> sameFilesOutside ps w2 w3 -> sameFilesOutside ps w1 w3.
Proof. intros H12 H23 p Hp. by rewrite (H23 p Hp), (H12 p Hp). Qed.

Lemma keeps_files_consoleLog ps line : keeps (sameFilesOutside ps) (consoleLog line).
Proof. by intros w p _. Qed.

Lemma keeps_files_mkdir ps p : keeps (sameFilesOutside ps) (mkdir p).
Proof. intros w q _. unfold mkdir. by destruct (existsb _ _). Qed.

Lemma keeps_files_copyFile ps src dest :
  In dest ps -> keeps (sameFilesOutside ps) (copyFile src dest).
Proof.
  intros Hd w q Hq. unfold copyFile.
  destruct (files w !! src); [|done]. destruct (writable w dest); [|done].
  simpl. apply lookup_insert_ne. by intros ->.
Qed.

Lemma keeps_files_writeFile ps p content :
  In p ps -> keeps (sameFilesOutside ps) (writeFile p content).
Proof.
  intros Hd w q Hq. unfold writeFile. destruct (writable w p); [|done].
  simpl. apply lookup_insert_ne. by intros ->.
Qed.

Lemma keeps_files_readFile ps p : keeps (sameFilesOutside ps) (readFile p).
Proof. intros w q _. unfold readFile. by destruct (files w !! p). Qed.

Lemma keeps_files_onStore {A : Type} ps (m : Build A) : keeps (sameFilesOutside ps) (onStore m).
Proof. intros w q _. unfold onStore. by destruct (m (store w)). Qed.

Lemma keeps_files_build (host : JSDate.Host) (dir : path) :
  keeps (sameFilesOutside (outputs dir)) (build host dir).
Proof.
  pose proof (sameFilesOutside_refl (outputs dir)) as Hr.
  pose proof (sameFilesOutside_trans (outputs dir)) as Ht.
  unfold build, readAndGenerateHTML.
  repeat first
    [ apply (keeps_bind _ Ht); [|intros ?]
    | apply (keeps_tryCatch _ Ht)
    | apply (keeps_forEach _ Hr Ht); intros icon Hicon
    | apply (keeps_ret _ Hr)
    | apply keeps_files_consoleLog
    | apply keeps_files_mkdir
    | apply keeps_files_readFile
    | apply keeps_files_onStore
    | apply keeps_files_copyFile
    | apply keeps_files_writeFile ].
  all: unfold outputs; simpl; tauto.
Qed.

(** X18: the build writes no file but its five outputs, whether it succeeds
    or fails: every other path holds after the run what it held before. *)
Theorem build_writes_outputs_only (host : JSDate.Host) (dir : path) (w : World) (p : path) :
  ~ In p (outputs dir) ->
  files (snd (main host dir w)) !! p = files w !! p.
Proof.
  intros Hp. unfold main. pose proof (keeps_files_build host dir w p Hp) as H.
  by destruct (build host dir w) as [[[]|e] w'].
Qed.

Lemma parentPath_joinPath (p : path) (x : string) : parentPath (joinPath p x) = p.
Proof. apply removelast_last. Qed.

Lemma joinPath_inj (p q : path) (x y : string) : joinPath p x = joinPath q y -> p = q /\ x = y.
Proof. apply app_inj_tail. Qed.

Lemma joinPath_not_above (p : path) (x : string) : ~ In (joinPath p x) (p :: ancestors p).
Proof.
  intros H. assert (length (joinPath p x) <= length p) as Hlen.
  { destruct H as [<-|H]; [done|]. unfold ancestors in H. apply in_map_iff in H.
    destruct H as (k & <- & Hk). rewrite length_take. lia. }
  unfold joinPath in Hlen. rewrite length_app in Hlen. simpl in Hlen. lia.
Qed.

Lemma writable_placed (dir : path) (w w' : World) (x : string) :
  dirs w' = list_to_set (OUTPUT_DIR dir :: ancestors (OUTPUT_DIR dir)) ∪ dirs w ->
  writable w' (joinPath (OUTPUT_DIR dir) x) = canPlace dir w x.
Proof.
  intros Hd. unfold writable, canPlace. rewrite parentPath_joinPath, Hd.
  rewrite bool_decide_eq_true_2.
  2:{ apply elem_of_union_l, elem_of_list_to_set. by left. }
  rewrite andb_true_l. f_equal. apply bool_decide_ext.
  rewrite elem_of_union, elem_of_list_to_set.
  split; [|by right]. intros [H|H]; [|done].
  apply list_elem_of_In in H. by apply joinPath_not_above in H.
Qed.

(** *** Steps of a run *)

Lemma run_log {B : Type} (line : string) (k : unit -> IO B) (w : World) :
  (consoleLog line ≫= k) w = k tt (logged line w).
Proof. reflexivity. Qed.

Lemma run_mkdir {B : Type} (p : path) (k : unit -> IO B) (w : World) :
  (mkdir p ≫= k) w
  = if existsb (isFile w) (p :: ancestors p)
    then (Thrown (MkdirFailed p), w)
    else k tt (setDirs (list_to_set (p :: ancestors p) ∪ dirs w) w).
Proof. rewrite bind_run. unfold mkdir. by destruct (existsb _ _). Qed.

Lemma run_copyFile {B : Type} (src dest : path) (k : unit -> IO B) (w : World) :
  (copyFile src dest ≫= k) w
  = match files w !! src with
    | Some content =>
        if writable w dest
        then k tt (setFiles (<[dest := content]> (files w)) w)
        else (Thrown (CopyFailed src dest), w)
    | None => (Thrown (CopyFailed src dest), w)
    end.
Proof.
  rewrite bind_run. unfold copyFile.
  destruct (files w !! src); [|done]. by destruct (writable w dest).
Qed.

Lemma run_writeFile {B : Type} (p : path) (content : string) (k : unit -> IO B) (w : World) :
  (writeFile p content ≫= k) w
  = if writable w p
    then k tt (setFiles (<[p := content]> (files w)) w)
    else (Thrown (WriteFailed p), w).
Proof. rewrite bind_run. unfold writeFile. by destruct (writable w p). Qed.

Lemma run_readAndGenerateHTML {B : Type}
    (host : JSDate.Host) (dir : path) (k : string -> IO B) (w : World) :
  (readAndGenerateHTML host dir ≫= k) w
  = let sorted := JSArray.sort compareByAddresses (store w) in
    match files w !! TEMPLATE_PATH dir with
    | Some template => k (fst (generateHTML host template (store w))) (setStore sorted w)
    | None => (Thrown (ReadFailed (TEMPLATE_PATH dir)), setStore sorted w)
    end.
Proof.
  unfold readAndGenerateHTML, mbind, IO_bind, onStore, sortInPlace, readFile,
    allFacilitators, mret, IO_ret.
  cbn [files store setStore].
  destruct (files w !! TEMPLATE_PATH dir) as [template|]; [|done].
  cbn [files store setStore]. by rewrite generateHTML_run.
Qed.

Lemma run_tryCatch {A B : Type} (body handler : IO A) (k : A -> IO B) (w : World) :
  (tryCatch body handler ≫= k) w
  = match body w with
    | (Returned a, w') => k a w'
    | (Thrown _, w') => (handler ≫= k) w'
    end.
Proof.
  rewrite bind_run. unfold tryCatch. destruct (body w) as [[a|e] w']; [done|].
  by rewrite bind_run.
Qed.

Lemma bind_assoc_run {A B C : Type} (m : IO A) (f : A -> IO B) (k : B -> IO C) (w : World) :
  ((m ≫= f) ≫= k) w = (m ≫= fun a => f a ≫= k) w.
Proof. rewrite !bind_run. by destruct (m w) as [[a|e] w']. Qed.

Lemma run_ret {A B : Type} (a : A) (k : A -> IO B) (w : World) : (mret a ≫= k) w = k a w.
Proof. reflexivity. Qed.

Lemma joinPath_longer (p : path) (x : string) : joinPath p x <> p.
Proof.
  intros H. apply (f_equal (@length _)) in H. unfold joinPath in H.
  rewrite length_app in H. simpl in H. lia.
Qed.

Ltac path_neq :=
  let H := fresh in
  intros H;
  unfold OUTPUT_DIR, ASSETS_DIR, CNAME_PATH, TEMPLATE_PATH in H;
  repeat (apply joinPath_inj in H; destruct H as [H ?]);
  try discriminate;
  try (by apply joinPath_longer in H);
  try (symmetry in H; by apply joinPath_longer in H).


Lemma isFile_logged (line : string) (w : World) : isFile (logged line w) = isFile w.
Proof. reflexivity. Qed.

Tactic Notation "simpl_world" :=
  cbn [files dirs store stdout stderr setFiles setDirs setStore logged].
Tactic Notation "simpl_world" "in" hyp(H) :=
  cbn [files dirs store stdout stderr setFiles setDirs setStore logged] in H.

Ltac run_copy dir w :=
  rewrite ?bind_assoc_run; rewrite run_copyFile; simpl_world;
  rewrite ?lookup_insert_ne by path_neq;
  rewrite (writable_placed dir w) by reflexivity.



Lemma writePage_outcome (host : JSDate.Host) (dir : path) (w W : World) :
  dirs W = list_to_set (OUTPUT_DIR dir :: ancestors (OUTPUT_DIR dir)) ∪ dirs w ->
  files W !! TEMPLATE_PATH dir = files w !! TEMPLATE_PATH dir ->
  store W = store w ->
  match writePage host dir W with
  | (Returned _, w') =>
      isFile w (TEMPLATE_PATH dir) && canPlace dir w "index.html" = true
      /\ (exists template,
            files w !! TEMPLATE_PATH dir = Some template
            /\ files w' !! joinPath (OUTPUT_DIR dir) "index.html"
               = Some (fst (generateHTML host template (store w))))
      /\ (forall p, p <> joinPath (OUTPUT_DIR dir) "index.html" ->
                    files w' !! p = files W !! p)
      /\ store w' = JSArray.sort compareByAddresses (store w)
  | (Thrown e, w') =>
      isFile w (TEMPLATE_PATH dir) && canPlace dir w "index.html" = false
      /\ files w' = files W
  end.
Proof.
  intros Hdirs Htemplate Hstore. unfold writePage, isFile.
  rewrite run_readAndGenerateHTML. cbv zeta. rewrite Htemplate, Hstore.
  destruct (files w !! TEMPLATE_PATH dir) as [template|]; [|done].
  rewrite run_writeFile, (writable_placed dir w) by done.
  destruct (canPlace dir w "index.html"); [|done].
  rewrite !run_log. unfold consoleLog. simpl_world.
  split; [done|]. split; [|split; [|done]].
  - exists template. split; [done|]. apply lookup_insert_eq.
  - intros p Hp. by apply lookup_insert_ne.
Qed.

Lemma build_outcome (host : JSDate.Host) (dir : path) (w : World) :
  match build host dir w with
  | (Returned _, w') =>
      buildable dir w = true
      /\ (exists template,
            files w !! TEMPLATE_PATH dir = Some template
            /\ files w' !! joinPath (OUTPUT_DIR dir) "index.html"
               = Some (fst (generateHTML host template (store w))))
      /\ (forall icon, In icon icons ->
            files w' !! joinPath (OUTPUT_DIR dir) icon
            = files w !! joinPath (ASSETS_DIR dir) icon)
      /\ files w' !! joinPath (OUTPUT_DIR dir) "CNAME"
         = (if isFile w (CNAME_PATH dir) && canPlace dir w "CNAME"
            then files w !! CNAME_PATH dir
            else files w !! joinPath (OUTPUT_DIR dir) "CNAME")
      /\ store w' = JSArray.sort compareByAddresses (store w)
  | (Thrown e, w') =>
      buildable dir w = false
      /\ files w' !! joinPath (OUTPUT_DIR dir) "index.html"
         = files w !! joinPath (OUTPUT_DIR dir) "index.html"
  end.
Proof.
  unfold build. fold (writePage host dir).
  rewrite run_log, run_mkdir, isFile_logged.
  unfold buildable, distFree, icons, forallb.
  destruct (existsb (isFile w) _) eqn:Hfree; [done|].
  unfold isFile. rewrite run_log. unfold forEach.
  (* the three icons *)
  run_copy dir w.
  destruct (files w !! joinPath (ASSETS_DIR dir) "base.webp") as [c1|] eqn:H1; [|done].
  destruct (canPlace dir w "base.webp") eqn:P1; [|done].
  run_copy dir w.
  destruct (files w !! joinPath (ASSETS_DIR dir) "polygon.webp") as [c2|] eqn:H2.
  2:{ split; [done|]. simpl_world. by rewrite !lookup_insert_ne by path_neq. }
  destruct (canPlace dir w "polygon.webp") eqn:P2.
  2:{ split; [done|]. simpl_world. by rewrite !lookup_insert_ne by path_neq. }
  run_copy dir w.
  destruct (files w !! joinPath (ASSETS_DIR dir) "solana.webp") as [c3|] eqn:H3.
  2:{ split; [done|]. simpl_world. by rewrite !lookup_insert_ne by path_neq. }
  destruct (canPlace dir w "solana.webp") eqn:P3.
  2:{ split; [done|]. simpl_world. by rewrite !lookup_insert_ne by path_neq. }
  rewrite run_ret.
  (* the optional CNAME *)
  rewrite run_tryCatch. run_copy dir w.
  match goal with
  | |- context [canPlace dir w "CNAME"] => idtac
  end.
  destruct (files w !! CNAME_PATH dir) as [c|] eqn:HC;
    [destruct (canPlace dir w "CNAME") eqn:PC|]; cbn [andb];
    [unfold consoleLog at 1|rewrite run_log..];
    match goal with
    | |- context [writePage host dir ?W] =>
        pose proof (writePage_outcome host dir w W) as HT;
        destruct (writePage host dir W) as [[[]|e] w']
    end.
  all: unfold isFile in HT; simpl_world; simpl_world in HT.
  all: first
    [ destruct HT as (Hb & Htemplate & Hother & Hstore);
        [done|by rewrite ?lookup_insert_ne by path_neq|done|];
      split; [exact Hb|]; split; [exact Htemplate|]; split; [|split; [|exact Hstore]];
      [ intros icon Hicon; repeat (destruct Hicon as [<-|Hicon]; [|]); try done
      | ];
      rewrite Hother by path_neq;
      repeat (rewrite lookup_insert_eq || rewrite lookup_insert_ne by path_neq); done
    | destruct HT as (Hb & Hfiles);
        [done|by rewrite ?lookup_insert_ne by path_neq|done|];
      split; [exact Hb|]; rewrite Hfiles;
      by rewrite ?lookup_insert_ne by path_neq ].
Qed.

Lemma main_outcome (host : JSDate.Host) (dir : path) (w : World) :
  match build host dir w with
  | (Returned _, w') => main host dir w = (0, w')
  | (Thrown e, w') => main host dir w = (1, consoleError "❌ Build failed:" e w')
  end.
Proof. unfold main. by destruct (build host dir w) as [[[]|e] w']. Qed.

(** X19: the process exits with code 0 exactly when no regular file stands in
    the way of the output directory, the three icons and the template are
    there, and no directory stands where an icon or the page is written; it
    exits with code 1 otherwise. The CNAME file plays no part. *)
Theorem exit_code_of_the_build (host : JSDate.Host) (dir : path) (w : World) :
  fst (main host dir w) = if buildable dir w then 0 else 1.
Proof.
  pose proof (build_outcome host dir w) as H. pose proof (main_outcome host dir w) as Hm.
  destruct (build host dir w) as [[[]|e] w']; rewrite Hm; simpl.
  - destruct H as [-> _]. done.
  - destruct H as [-> _]. done.
Qed.

(** X20: a build that can run writes the page generated from the template
    and the catalog to [dist/index.html], copies each icon as it is, and
    leaves the catalog sorted. *)
Theorem successful_build_outputs (host : JSDate.Host) (dir : path) (w : World) :
  buildable dir w = true ->
  let w' := snd (main host dir w) in
  fst (main host dir w) = 0
  /\ (exists template,
        files w !! TEMPLATE_PATH dir = Some template
        /\ files w' !! joinPath (OUTPUT_DIR dir) "index.html"
           = Some (fst (generateHTML host template (store w))))
  /\ (forall icon, In icon ["base.webp"; "polygon.webp"; "solana.webp"] ->
        files w' !! joinPath (OUTPUT_DIR dir) icon
        = files w !! joinPath (ASSETS_DIR dir) icon)
  /\ store w' = JSArray.sort compareByAddresses (store w).
Proof.
  intros Hb. pose proof (build_outcome host dir w) as H.
  pose proof (main_outcome host dir w) as Hm.
  destruct (build host dir w) as [[[]|e] w']; rewrite Hm; simpl.
  - destruct H as (_ & Hpage & Hicons & _ & Hstore). done.
  - destruct H as [H _]. congruence.
Qed.

Lemma successful_build_outputs_witness :
  buildable sampleDir sampleWorld = true
  /\ fst (main JSDate.UTC sampleDir sampleWorld) = 0.
Proof.
  assert (buildable sampleDir sampleWorld = true) as Hb by (vm_compute; reflexivity).
  split; [exact Hb|]. apply (successful_build_outputs JSDate.UTC sampleDir sampleWorld Hb).
Defined.

(** X21: the CNAME file is optional. A build that can run succeeds without
    it; [dist/CNAME] holds the content of the CNAME file when there is one
    and it can be placed, and is left as it was otherwise. *)
Theorem cname_is_optional (host : JSDate.Host) (dir : path) (w : World) :
  buildable dir w = true ->
  fst (main host dir w) = 0
  /\ files (snd (main host dir w)) !! joinPath (OUTPUT_DIR dir) "CNAME"
     = (if isFile w (CNAME_PATH dir) && canPlace dir w "CNAME"
        then files w !! CNAME_PATH dir
        else files w !! joinPath (OUTPUT_DIR dir) "CNAME").
Proof.
  intros Hb. pose proof (build_outcome host dir w) as H.
  pose proof (main_outcome host dir w) as Hm.
  destruct (build host dir w) as [[[]|e] w']; rewrite Hm; simpl.
  - destruct H as (_ & _ & _ & Hcname & _). done.
  - destruct H as [H _]. congruence.
Qed.

Lemma cname_is_optional_witness :
  isFile sampleWorld (CNAME_PATH sampleDir) = false
  /\ fst (main JSDate.UTC sampleDir sampleWorld) = 0.
Proof.
  assert (buildable sampleDir sampleWorld = true) as Hb by (vm_compute; reflexivity).
  split; [vm_compute; reflexivity|].
  apply (cname_is_optional JSDate.UTC sampleDir sampleWorld Hb).
Defined.

(** X22: a build that cannot run exits with code 1 and leaves
    [dist/index.html] as it was: the page is written last. *)
Theorem failed_build_keeps_the_page (host : JSDate.Host) (dir : path) (w : World) :
  buildable dir w = false ->
  fst (main host dir w) = 1
  /\ files (snd (main host dir w)) !! joinPath (OUTPUT_DIR dir) "index.html"
     = files w !! joinPath (OUTPUT_DIR dir) "index.html".
Proof.
  intros Hb. pose proof (build_outcome host dir w) as H.
  pose proof (main_outcome host dir w) as Hm.
  destruct (build host dir w) as [[[]|e] w']; rewrite Hm; simpl.
  - destruct H as [H _]. congruence.
  - destruct H as [_ H]. done.
Qed.

Lemma failed_build_keeps_the_page_witness :
  buildable sampleDir bareWorld = false
  /\ fst (main JSDate.UTC sampleDir bareWorld) = 1.
Proof.
  assert (buildable sampleDir bareWorld = false) as Hb by (vm_compute; reflexivity).
  split; [exact Hb|]. apply (failed_build_keeps_the_page JSDate.UTC sampleDir bareWorld Hb).
Defined.

Lemma build_writes_outputs_only_witness :
  files (snd (main JSDate.UTC sampleDir sampleWorld)) !! ["repo"; "assets"; "base.webp"]
  = files sampleWorld !! ["repo"; "assets"; "base.webp"].
Proof.
  apply build_writes_outputs_only. unfold outputs. simpl.
  intros H. repeat (destruct H as [H|H]; [discriminate H|]). exact H.
Defined.

(** X23: a failing build is not undone. When the first icon is copied and
    the second is missing, the process exits with code 1, reports the failed
    copy on the error stream, and [dist/base.webp] holds the copy all the
    same. *)
Theorem failed_build_keeps_partial_output
  (host : JSDate.Host) (dir : path) (w : World) (content : string) :
  distFree dir w = true ->
  files w !! joinPath (ASSETS_DIR dir) "base.webp" = Some content ->
  canPlace dir w "base.webp" = true ->
  files w !! joinPath (ASSETS_DIR dir) "polygon.webp" = None ->
  fst (main host dir w) = 1
  /\ files (snd (main host dir w)) !! joinPath (OUTPUT_DIR dir) "base.webp" = Some content
  /\ stderr (snd (main host dir w))
     = stderr w ++ [("❌ Build failed:",
                     CopyFailed (joinPath (ASSETS_DIR dir) "polygon.webp")
                                (joinPath (OUTPUT_DIR dir) "polygon.webp"))].
Proof.
  intros Hfree H1 P1 H2. unfold distFree in Hfree. apply negb_true_iff in Hfree.
  unfold main, build.
  rewrite run_log, run_mkdir, isFile_logged, Hfree, run_log. unfold forEach.
  run_copy dir w. rewrite H1, P1.
  run_copy dir w. rewrite H2.
  cbn [fst snd]. unfold consoleError. simpl_world.
  split; [done|]. split; [apply lookup_insert_eq|done].
Qed.

Lemma failed_build_keeps_partial_output_witness :
  fst (main JSDate.UTC sampleDir oneIconWorld) = 1
  /\ files (snd (main JSDate.UTC sampleDir oneIconWorld)) !! ["repo"; "dist"; "base.webp"]
     = Some "base-icon".
Proof.
  destruct (failed_build_keeps_partial_output JSDate.UTC sampleDir oneIconWorld "base-icon")
    as (Hcode & Hfile & _); try (vm_compute; reflexivity).
  by split.
Defined.
